(** * lab1-webServer: a bounded file server and a forwarding proxy

    A shallow embedding of [http_server.go] (module [Server]) and of
    [proxy.go] (module [Proxy]), with the parts of the Go standard library
    they call (module [Go]).  A connection handler is embedded as the trace
    of effects it performs, given the answers the operating system and the
    peer give to it. *)

From stdpp Require Import gmap strings list.
From Stdlib Require Import ZArith Ascii DecimalString DecimalZ DecimalPos.

Local Open Scope Z_scope.

(** String concatenation computes on literals in this development. *)
#[local] Arguments String.append !_ _ / : simpl nomatch.

(* ===================================================================== *)
(** * The Go library functions the two programs call                      *)
(* ===================================================================== *)

Module Go.

(** Go strings are byte strings; a Rocq [string] is a list of bytes. *)
Definition CR : ascii := ascii_of_nat 13.
Definition LF : ascii := ascii_of_nat 10.
Definition CRLF : string := String CR (String LF "").

(** [len(s)] *)
Definition len (s : string) : Z := Z.of_nat (String.length s).

(** ** error values

    [io.EOF] is a sentinel compared by identity ([err != io.EOF]); every
    other error value is kept with the text its [Error()] method returns. *)
Inductive error : Type :=
  | io_EOF
  | errorString (msg : string).

Definition Error (e : error) : string :=
  match e with
  | io_EOF => "EOF"
  | errorString msg => msg
  end.

#[global] Instance error_eq_dec : EqDecision error.
Proof. solve_decision. Defined.

(** ** package strings *)

(** [strings.Contains(s, substr)] *)
Fixpoint Contains (s substr : string) : bool :=
  if String.prefix substr s then true
  else match s with
       | EmptyString => false
       | String _ s' => Contains s' substr
       end.

(** [strings.IndexByte(s, c) >= 0] *)
Fixpoint hasByte (c : ascii) (s : string) : bool :=
  match s with
  | EmptyString => false
  | String a s' => if Ascii.eqb a c then true else hasByte c s'
  end.

(** ** package fmt *)

(** The decimal text [%d] prints for an integer. *)
Definition itoa (z : Z) : string := NilZero.string_of_int (Z.to_int z).

(** The inverse reading, [strconv.Atoi]. *)
Definition atoi (s : string) : option Z := Z.of_int <$> NilZero.int_of_string s.

(** The operands the programs format into responses. *)
Inductive fmtarg : Type :=
  | AInt (z : Z)
  | AStr (s : string).

(** One verb applied to one operand; a verb that does not fit the operand
    prints the library's bad-verb text. *)
Definition verb (v : ascii) (a : fmtarg) : string :=
  match a with
  | AInt z =>
      if Ascii.eqb v "d" || Ascii.eqb v "v" then itoa z
      else "%!" +:+ String v "(int=" +:+ itoa z +:+ ")"
  | AStr s =>
      if Ascii.eqb v "s" || Ascii.eqb v "v" then s
      else "%!" +:+ String v "(string=" +:+ s +:+ ")"
  end.

(** [fmt.Sprintf(format, args...)] for formats without flags or widths, as
    the programs use them, with as many operands as verbs or fewer. *)
Fixpoint Sprintf (format : string) (args : list fmtarg) : string :=
  match format with
  | EmptyString => ""
  | String c EmptyString => if Ascii.eqb c "%" then "%!(NOVERB)" else String c ""
  | String c (String v rest as tl) =>
      if Ascii.eqb c "%" then
        if Ascii.eqb v "%" then String "%" (Sprintf rest args)
        else match args with
             | a :: args' => verb v a +:+ Sprintf rest args'
             | [] => "%!" +:+ String v "(MISSING)" +:+ Sprintf rest []
             end
      else String c (Sprintf tl args)
  end.

(** ** byte-slice helpers

    Library code that indexes strings is embedded on [list ascii], the
    bytes of the string. *)
Definition bytes (s : string) : list ascii := String.list_ascii_of_string s.
Definition str (l : list ascii) : string := String.string_of_list_ascii l.

(** [s[i] == c], false when [i] is out of range *)
Definition byteAt (l : list ascii) (i : nat) (c : ascii) : bool :=
  match l !! i with
  | Some a => Ascii.eqb a c
  | None => false
  end.

(** [IndexByteString(s, c)], [None] for -1 *)
Fixpoint IndexByte (l : list ascii) (c : ascii) : option nat :=
  match l with
  | [] => None
  | a :: l' => if Ascii.eqb a c then Some O else S <$> IndexByte l' c
  end.

(** [LastIndexByteString(s, c)], [None] for -1 *)
Fixpoint LastIndexByte (l : list ascii) (c : ascii) : option nat :=
  match l with
  | [] => None
  | a :: l' =>
      match LastIndexByte l' c with
      | Some i => Some (S i)
      | None => if Ascii.eqb a c then Some O else None
      end
  end.

(** ** package path/filepath (Unix: the separator is ['/'], no volume) *)

Definition IsPathSeparator (c : ascii) : bool := Ascii.eqb c "/".

Definition sepAt (l : list ascii) (i : nat) : bool := byteAt l i "/".

(** The inner loop of the [..] case of [Clean]:
    [for out.w > dotdot && !os.IsPathSeparator(out.index(out.w)) { out.w-- }] *)
Fixpoint backtrack (out : list ascii) (dotdot w : nat) : nat :=
  match w with
  | O => O
  | S w' =>
      if (dotdot <? w)%nat && negb (sepAt out w)
      then backtrack out dotdot w'
      else w
  end.

(** The element copy of the default case of [Clean]:
    [for ; r < n && !os.IsPathSeparator(path[r]); r++ { out.append(path[r]) }];
    returns the bytes copied and what follows them. *)
Fixpoint element (rest : list ascii) : list ascii * list ascii :=
  match rest with
  | [] => ([], [])
  | c :: rest' =>
      if IsPathSeparator c then ([], rest)
      else let '(e, tl) := element rest' in (c :: e, tl)
  end.

(** The main loop of [Clean], [for r < n { switch ... }].  [rest] is
    [path[r:]]; [out] is the content [buf[:w]] of the output buffer (the
    lazy buffer of the library holds exactly these bytes); each turn
    consumes at least one byte, so [fuel = n] turns are enough. *)
Fixpoint cleanLoop (fuel : nat) (rooted : bool) (rest out : list ascii)
    (dotdot : nat) : list ascii :=
  match fuel with
  | O => out
  | S fuel' =>
      match rest with
      | [] => out
      | c :: rest1 =>
          if IsPathSeparator c then
            (* empty path element *)
            cleanLoop fuel' rooted rest1 out dotdot
          else if Ascii.eqb c "." &&
                  (bool_decide (rest1 = []) || sepAt rest1 0) then
            (* . element *)
            cleanLoop fuel' rooted rest1 out dotdot
          else if Ascii.eqb c "." && byteAt rest1 0 "." &&
                  (bool_decide (drop 1 rest1 = []) || sepAt rest1 1) then
            (* .. element: remove to last separator *)
            let rest2 := drop 1 rest1 in
            if (dotdot <? length out)%nat then
              (* can backtrack *)
              let w := backtrack out dotdot (length out - 1) in
              cleanLoop fuel' rooted rest2 (take w out) dotdot
            else if negb rooted then
              (* cannot backtrack, but not rooted, so append .. element *)
              let out1 := if (0 <? length out)%nat then out ++ ["/"%char] else out in
              let out2 := out1 ++ ["."%char; "."%char] in
              cleanLoop fuel' rooted rest2 out2 (length out2)
            else
              cleanLoop fuel' rooted rest2 out dotdot
          else
            (* real path element: add slash if needed, copy element *)
            let out1 :=
              if (rooted && negb (length out =? 1)%nat) ||
                 (negb rooted && negb (length out =? 0)%nat)
              then out ++ ["/"%char] else out in
            let '(e, tl) := element rest in
            cleanLoop fuel' rooted tl (out1 ++ e) dotdot
      end
  end.

(** [filepath.Clean(path)] *)
Definition Clean (path : string) : string :=
  match bytes path with
  | [] => "."
  | c :: rest =>
      let rooted := IsPathSeparator c in
      let out :=
        if rooted
        then cleanLoop (String.length path) true rest ["/"%char] 1
        else cleanLoop (String.length path) false (c :: rest) [] 0 in
      (* Turn empty string into "." *)
      match out with
      | [] => "."
      | _ => str out
      end
  end.

(** The backwards scan of [Ext], on the reversed path; [acc] is [path[i+1:]]. *)
Fixpoint extScan (rev_path acc : list ascii) : list ascii :=
  match rev_path with
  | [] => []
  | c :: rev_path' =>
      if IsPathSeparator c then []
      else if Ascii.eqb c "." then c :: acc
      else extScan rev_path' (c :: acc)
  end.

(** [filepath.Ext(path)] *)
Definition Ext (path : string) : string := str (extScan (rev (bytes path)) []).

(** The backwards scan of [Dir]: [path[:i+1]] for the last separator [i]. *)
Fixpoint dirScan (rev_path : list ascii) : list ascii :=
  match rev_path with
  | [] => []
  | c :: rev_path' => if IsPathSeparator c then rev rev_path else dirScan rev_path'
  end.

(** [filepath.Dir(path)] *)
Definition Dir (path : string) : string := Clean (str (dirScan (rev (bytes path)))).

(** ** package net *)

(** [&AddrError{Err: why, Addr: addr}] *)
Definition AddrError (addr why : string) : error :=
  errorString ("address " +:+ addr +:+ ": " +:+ why).

Definition missingPort : string := "missing port in address".
Definition tooManyColons : string := "too many colons in address".

(** [net.SplitHostPort(hostport)] *)
Definition SplitHostPort (hostport : string) : (string * string) + error :=
  let hp := bytes hostport in
  let addrErr (why : string) : (string * string) + error :=
    inr (AddrError hostport why) in
  (* The port starts after the last colon. *)
  match LastIndexByte hp ":" with
  | None => addrErr missingPort
  | Some i =>
      let finish (host : list ascii) (j k : nat) :=
        if bool_decide (is_Some (IndexByte (drop j hp) "[")) then
          addrErr "unexpected '[' in address"
        else if bool_decide (is_Some (IndexByte (drop k hp) "]")) then
          addrErr "unexpected ']' in address"
        else inl (str host, str (drop (i + 1) hp)) in
      if byteAt hp 0 "[" then
        (* Expect the first ']' just before the last ':'. *)
        match IndexByte hp "]" with
        | None => addrErr "missing ']' in address"
        | Some end_ =>
            if (end_ + 1 =? length hp)%nat then
              (* There can't be a ':' behind the ']' now. *)
              addrErr missingPort
            else if (end_ + 1 =? i)%nat then
              (* The expected result. *)
              finish (drop 1 (take end_ hp)) 1%nat (end_ + 1)%nat
            else if byteAt hp (end_ + 1) ":" then addrErr tooManyColons
            else addrErr missingPort
        end
      else
        let host := take i hp in
        if bool_decide (is_Some (IndexByte host ":")) then addrErr tooManyColons
        else finish host 0%nat 0%nat
  end.

(** [net.JoinHostPort(host, port)] *)
Definition JoinHostPort (host port : string) : string :=
  (* We assume that host is a literal IPv6 address if host has colons. *)
  if bool_decide (is_Some (IndexByte (bytes host) ":"))
  then "[" +:+ host +:+ "]:" +:+ port
  else host +:+ ":" +:+ port.

(** ** package net/url *)

Module url.

(** The fields of [url.URL] the programs and [Request.Write] read.
    [EscapedPath] holds what the method [u.EscapedPath()] returns: the
    encoding of [Path] that the library computes from [Path] and
    [RawPath]. *)
Record URL : Type := mkURL {
  Scheme : string;
  Opaque : string;
  Host : string;
  Path : string;
  EscapedPath : string;
  ForceQuery : bool;
  RawQuery : string
}.

(** [u.RequestURI()] *)
Definition RequestURI (u : URL) : string :=
  let result := Opaque u in
  let result :=
    if bool_decide (result = "") then
      let result := EscapedPath u in
      if bool_decide (result = "") then "/" else result
    else
      if String.prefix "//" result then Scheme u +:+ ":" +:+ result else result in
  if ForceQuery u || negb (bool_decide (RawQuery u = ""))
  then result +:+ "?" +:+ RawQuery u
  else result.

#[global] Instance URL_eq_dec : EqDecision URL.
Proof. solve_decision. Defined.

End url.

(** ** package net/textproto *)

Definition isLower (c : ascii) : bool :=
  (97 <=? nat_of_ascii c)%nat && (nat_of_ascii c <=? 122)%nat.
Definition isUpper (c : ascii) : bool :=
  (65 <=? nat_of_ascii c)%nat && (nat_of_ascii c <=? 90)%nat.
Definition isDigit (c : ascii) : bool :=
  (48 <=? nat_of_ascii c)%nat && (nat_of_ascii c <=? 57)%nat.

(** [validHeaderFieldByte(c)]: the token bytes of RFC 7230 *)
Definition validHeaderFieldByte (c : ascii) : bool :=
  isLower c || isUpper c || isDigit c || hasByte c "!#$%&'*+-.^_`|~".

(** The rewriting loop of [canonicalMIMEHeaderKey]: upper case at the
    start and after a dash, lower case elsewhere. *)
Fixpoint canonicalLoop (upper : bool) (a : list ascii) : list ascii :=
  match a with
  | [] => []
  | c :: a' =>
      let c' :=
        if upper && isLower c then ascii_of_nat (nat_of_ascii c - 32)
        else if negb upper && isUpper c then ascii_of_nat (nat_of_ascii c + 32)
        else c in
      c' :: canonicalLoop (Ascii.eqb c' "-") a'
  end.

(** [textproto.CanonicalMIMEHeaderKey(s)]: a key with a byte that is not a
    token byte is returned unchanged. *)
Definition CanonicalMIMEHeaderKey (s : string) : string :=
  if forallb validHeaderFieldByte (bytes s)
  then str (canonicalLoop true (bytes s))
  else s.

(** ** package net/http *)

Module http.

Definition StatusBadRequest : Z := 400.
Definition StatusNotFound : Z := 404.
Definition StatusInternalServerError : Z := 500.
Definition StatusNotImplemented : Z := 501.
Definition StatusBadGateway : Z := 502.

(** [http.Header], a [map[string][]string] *)
Abbreviation Header := (gmap string (list string)).

(** [h.Del(key)] *)
Definition Del (key : string) (h : Header) : Header :=
  delete (CanonicalMIMEHeaderKey key) h.

(** [h.Set(key, value)] *)
Definition Set_ (key value : string) (h : Header) : Header :=
  <[CanonicalMIMEHeaderKey key := [value]]> h.

(** The fields of [http.Request] the programs and [Request.Write] read.
    For a request read from a connection [Host] is the host of the URL when
    the target is absolute, otherwise the value of the Host header, which
    [ReadRequest] removes from [Header]; [Body] is what the body stream
    yields. *)
Record Request : Type := mkRequest {
  Method : string;
  URL : url.URL;
  Header_ : Header;
  Host : string;
  RequestURI : string;
  Body : string
}.

Definition set_RequestURI (v : string) (r : Request) : Request :=
  mkRequest (Method r) (URL r) (Header_ r) (Host r) v (Body r).

Definition set_Header (h : Header) (r : Request) : Request :=
  mkRequest (Method r) (URL r) h (Host r) (RequestURI r) (Body r).

(** What [r.Write(w)] puts on the wire from the request line and from the
    [Header] map: the method and the target of the request line, and the
    header fields written by [r.Header.writeSubset(w, reqWriteExcludeHeader)].
    The lines [Write] derives by itself (Host, User-Agent, body framing) are
    not part of this view. *)
Record wire : Type := mkWire {
  wire_method : string;
  wire_target : string;
  wire_fields : Header
}.

Definition reqWriteExcludeHeader : list string :=
  ["Host"; "User-Agent"; "Content-Length"; "Transfer-Encoding"; "Trailer"].

(** [valueOrDefault(value, def)] *)
Definition valueOrDefault (value def : string) : string :=
  if bool_decide (value = "") then def else value.

(** [r.Write(w)], that is [r.write(w, false, nil, nil)].  The library
    documents that this method consults the fields Host, URL, Method
    (defaults to "GET"), Header, ContentLength, TransferEncoding and Body:
    the field [RequestURI] is not among them.  The request line is
    [fmt.Fprintf(w, "%s %s HTTP/1.1\r\n", valueOrDefault(r.Method, "GET"), ruri)]
    with [ruri := r.URL.RequestURI()], which is left as it is when
    [usingProxy] is false and the method is not CONNECT, the case of the
    proxy. *)
Definition Write (r : Request) : wire :=
  let ruri := url.RequestURI (URL r) in
  {| wire_method := valueOrDefault (Method r) "GET";
     wire_target := ruri;
     wire_fields :=
       filter (λ kv : string * list string, kv.1 ∉ reqWriteExcludeHeader)
              (Header_ r) |}.

(** The request line as written. *)
Definition request_line (w : wire) : string :=
  Sprintf ("%s %s HTTP/1.1" +:+ CRLF) [AStr (wire_method w); AStr (wire_target w)].

#[global] Instance wire_eq_dec : EqDecision wire.
Proof. solve_decision. Defined.

End http.

End Go.

Import Go.

(* ===================================================================== *)
(** * Effects of a connection handler                                     *)
(* ===================================================================== *)

(** What a log line is built from: [log.Printf] operands are recorded, not
    rendered. *)
Inductive logarg : Type :=
  | LInt (z : Z)
  | LStr (s : string)
  | LErr (e : error)
  | LUrl (u : url.URL).                (* req.URL.String() *)

Inductive event : Type :=
  | Log (format : string) (args : list logarg)
  | ConnWrite (data : string)          (* fmt.Fprintf(conn, ...) *)
  | ConnCopy (data : string)           (* io.Copy(conn, src): bytes moved to the client *)
  | ConnClose                          (* conn.Close() *)
  | SemRelease                         (* <-sem *)
  | FsOpen (path : string)             (* os.Open(path) *)
  | FsStat                             (* file.Stat() *)
  | FsMkdirAll (dir : string)          (* os.MkdirAll(dir, 0755) *)
  | FsCreate (path : string)           (* os.Create(path) *)
  | FileCopy (data : string)           (* io.Copy(file, req.Body): bytes moved to the file *)
  | FileClose                          (* file.Close() *)
  | Dial (address : string)            (* net.Dial("tcp", address) *)
  | RemoteWrite (w : http.wire)        (* req.Write(remoteConn) *)
  | RemoteClose.                       (* remoteConn.Close() *)

Abbreviation trace := (list event).

#[global] Instance logarg_eq_dec : EqDecision logarg.
Proof. solve_decision. Defined.

#[global] Instance event_eq_dec : EqDecision event.
Proof. solve_decision. Defined.

(** [fmt.Fprintf(conn, format, args...)]: one write of the formatted text. *)
Definition Fprintf (format : string) (args : list fmtarg) : trace :=
  [ConnWrite (Sprintf format args)].

(** [defer d] followed by [body]: [d] runs when the function returns, on
    every path, after deferred calls registered later. *)
Definition defer (d body : trace) : trace := body ++ d.

(** The bytes a trace puts on the client connection, in order. *)
Fixpoint conn_bytes (t : trace) : string :=
  match t with
  | [] => ""
  | ConnWrite data :: t' => data +:+ conn_bytes t'
  | ConnCopy data :: t' => data +:+ conn_bytes t'
  | _ :: t' => conn_bytes t'
  end.

(** The events of a trace that touch the client connection's byte stream. *)
Definition is_conn_output (e : event) : bool :=
  match e with
  | ConnWrite _ | ConnCopy _ => true
  | _ => false
  end.

Definition is_dial (e : event) : bool :=
  match e with Dial _ => true | _ => false end.

Definition is_relay (e : event) : bool :=
  match e with ConnCopy _ => true | _ => false end.

Definition is_remote_write (e : event) : bool :=
  match e with RemoteWrite _ => true | _ => false end.

Definition is_release (e : event) : bool :=
  match e with SemRelease => true | _ => false end.

Definition is_fs (e : event) : bool :=
  match e with
  | FsOpen _ | FsStat | FsMkdirAll _ | FsCreate _ | FileCopy _ | FileClose => true
  | _ => false
  end.

(** How often a kind of event occurs in a trace. *)
Definition count (p : event → bool) (t : trace) : nat := length (List.filter p t).

(** The text [sendErrorResponse] formats for its body: ["<code> <reason>"]. *)
Definition error_body (code : Z) (status : string) : string :=
  itoa code +:+ " " +:+ status.

(** The layout of a minimal error response: status line, the three header
    lines, a blank line, the body. *)
Definition error_response (code : Z) (status : string) : string :=
  "HTTP/1.1 " +:+ itoa code +:+ " " +:+ status +:+ CRLF
  +:+ "Content-Type: text/plain" +:+ CRLF
  +:+ "Content-Length: " +:+ itoa (len (error_body code status)) +:+ CRLF
  +:+ "Connection: close" +:+ CRLF
  +:+ CRLF
  +:+ error_body code status.

(* ===================================================================== *)
(** * http_server.go                                                      *)
(* ===================================================================== *)

Module Server.

(** define the maximum number of concurrent requests *)
Definition maxConcurrentRequests : nat := 10.

(** Supported MIME types *)
Definition mimeTypes : gmap string string :=
  list_to_map [
    (".html", "text/html");
    (".txt", "text/plain");
    (".gif", "image/gif");
    (".jpeg", "image/jpeg");
    (".jpg", "image/jpeg");
    (".css", "text/css")
  ].

(** An open file: what [file.Stat()] answers (the size or an error), and
    what [io.Copy(conn, file)] does (the bytes it moves and its error). *)
Record file : Type := mkFile {
  file_Stat : Z + error;
  file_Copy : string * option error
}.

(** The answer of [os.Open]: a file, or an error with what
    [os.IsNotExist(err)] says of it. *)
Inductive open_result : Type :=
  | OpenOk (f : file)
  | OpenErr (e : error) (IsNotExist : bool).

(** What one connection meets: the peer and the operating system. *)
Record world : Type := mkWorld {
  RemoteAddr : string;                        (* conn.RemoteAddr().String() *)
  ReadRequest : http.Request + error;         (* http.ReadRequest(reader) *)
  os_Open : string → open_result;             (* os.Open(path) *)
  os_MkdirAll : string → option error;        (* os.MkdirAll(dir, 0755) *)
  os_Create : string → option error;          (* os.Create(path) *)
  io_Copy_body : string → string * option error  (* io.Copy(file, req.Body) *)
}.

(** [sendErrorResponse(conn, code, status)] *)
Definition sendErrorResponse (code : Z) (status : string) : trace :=
  let body := Sprintf "%d %s" [AInt code; AStr status] in
  [Log "Sending error: %s" [LStr body]]
  ++ Fprintf ("HTTP/1.1 %d %s" +:+ CRLF) [AInt code; AStr status]
  ++ Fprintf ("Content-Type: text/plain" +:+ CRLF) []
  ++ Fprintf ("Content-Length: %d" +:+ CRLF) [AInt (len body)]
  ++ Fprintf ("Connection: close" +:+ CRLF) []
  ++ Fprintf CRLF []
  ++ Fprintf "%s" [AStr body].

(** The local variable [path] of [handleGet] when the extension is looked
    up: lines 98 to 101. *)
Definition getPath (req : http.Request) : string :=
  let path := Clean ("./" +:+ url.Path (http.URL req)) in
  if bool_decide (path = "./")
  then "./index.html" (* Default to serving index.html *)
  else path.

(** [handleGet(conn, req)] *)
Definition handleGet (w : world) (req : http.Request) : trace :=
  let path := getPath req in
  (* step 1: Check extension and Content-Type *)
  let ext := Ext path in
  match mimeTypes !! ext with
  | None =>
      [Log "Unsupported file type: %s (path: %s)" [LStr ext; LStr path]]
      ++ sendErrorResponse http.StatusBadRequest "Bad Request: Unsupported file type"
  | Some contentType =>
      (* step 2: Try to open the file *)
      [FsOpen path] ++
      match os_Open w path with
      | OpenErr err IsNotExist =>
          if IsNotExist then
            [Log "File not found: %s" [LStr path]]
            ++ sendErrorResponse http.StatusNotFound "Not Found"
          else
            [Log "Failed to open file: %v" [LErr err]]
            ++ sendErrorResponse http.StatusInternalServerError "Internal Server Error"
      | OpenOk f =>
          defer [FileClose] (
            (* step 3: Get file size (for Content-Length) *)
            [FsStat] ++
            match file_Stat f with
            | inr err =>
                [Log "Failed to get file stat: %v" [LErr err]]
                ++ sendErrorResponse http.StatusInternalServerError "Internal Server Error"
            | inl fileSize =>
                (* step 4: Send 200 OK response headers *)
                Fprintf ("HTTP/1.1 200 OK" +:+ CRLF) []
                ++ Fprintf ("Content-Type: %s" +:+ CRLF) [AStr contentType]
                ++ Fprintf ("Content-Length: %d" +:+ CRLF) [AInt fileSize]
                ++ Fprintf ("Connection: close" +:+ CRLF) []
                ++ Fprintf CRLF []
                (* step 5: Send file content (body) *)
                ++ [ConnCopy (file_Copy f).1]
                ++ match (file_Copy f).2 with
                   | Some err => [Log "Failed to send file body: %v" [LErr err]]
                   | None => []
                   end
            end)
      end
  end.

(** [handlePost(conn, req)] *)
Definition handlePost (w : world) (req : http.Request) : trace :=
  (* step 1: Similarly clean the path *)
  let path := Clean ("./" +:+ url.Path (http.URL req)) in
  (* step 2: Ensure directory exists *)
  let dir := Dir path in
  [FsMkdirAll dir] ++
  match os_MkdirAll w dir with
  | Some err =>
      [Log "Failed to create directory: %v" [LErr err]]
      ++ sendErrorResponse http.StatusInternalServerError "Internal Server Error"
  | None =>
      (* step 3: Create file (overwrite if exists) *)
      [FsCreate path] ++
      match os_Create w path with
      | Some err =>
          [Log "Failed to create file: %v" [LErr err]]
          ++ sendErrorResponse http.StatusInternalServerError "Internal Server Error"
      | None =>
          defer [FileClose] (
            (* step 4: Write request body (req.Body) to file *)
            let '(copied, cerr) := io_Copy_body w (http.Body req) in
            [FileCopy copied] ++
            match cerr with
            | Some err =>
                [Log "Failed to write to file: %v" [LErr err]]
                ++ sendErrorResponse http.StatusInternalServerError "Internal Server Error"
            | None =>
                [Log "Successfully POSTed %d bytes to %s" [LInt (len copied); LStr path]]
                (* step 5: Send 201 Created response *)
                ++ Fprintf ("HTTP/1.1 201 Created" +:+ CRLF) []
                ++ Fprintf ("Content-Type: text/plain" +:+ CRLF) []
                ++ Fprintf ("Content-Length: 0" +:+ CRLF) []
                ++ Fprintf ("Connection: close" +:+ CRLF) []
                ++ Fprintf CRLF []
            end)
      end
  end.

(** The test of line 79:
    [err != io.EOF && !strings.Contains(err.Error(), "connection reset")] *)
Definition shouldReport (err : error) : bool :=
  negb (bool_decide (err = io_EOF)) && negb (Contains (Error err) "connection reset").

(** step 2 of [handleConnection]: Route based on method *)
Definition dispatch (w : world) (req : http.Request) : trace :=
  if bool_decide (http.Method req = "GET") then handleGet w req
  else if bool_decide (http.Method req = "POST") then handlePost w req
  else
    (* Other methods return 501 Not Implemented *)
    sendErrorResponse http.StatusNotImplemented "Not Implemented".

(** A goroutine running [handleConnection]: the effects its body has yet to
    perform, and the deferred calls that run when the body has returned. *)
Record goroutine : Type := mkGoroutine {
  todo : trace;
  deferred : trace
}.

(** The statements of [handleConnection(conn, sem)] after the two [defer]s,
    with step 2 ([switch req.Method]) as the parameter [route] *)
Definition handleConnection_with (route : http.Request → trace) (w : world) : trace :=
  [Log "Handling new connection: %s" [LStr (RemoteAddr w)]] ++
  (* step 1: Parse request (using net/http parser) *)
  match ReadRequest w with
  | inr err =>
      [Log "Failed to parse request: %v" [LErr err]]
      ++ (if shouldReport err
          then sendErrorResponse http.StatusBadRequest "Bad Request"
          else [])
  | inl req => route req
  end.

(** The statements of [handleConnection(conn, sem)] after the two [defer]s *)
Definition handleConnection_body (w : world) : trace :=
  handleConnection_with (dispatch w) w.

(** The deferred calls of [handleConnection], in the order they run: the
    one registered last (the release of the semaphore) first. *)
Definition handleConnection_deferred (w : world) : trace :=
  defer [ConnClose]
    (defer [SemRelease; Log "Connection %s closed, released a slot" [LStr (RemoteAddr w)]]
       []).

(** [handleConnection(conn, sem)] when it starts *)
Definition handleConnection (w : world) : goroutine :=
  {| todo := handleConnection_body w; deferred := handleConnection_deferred w |}.

(** Everything a goroutine does from now to its end. *)
Definition remaining (g : goroutine) : trace := todo g ++ deferred g.

(** ** [main]: the accept loop and the goroutines it starts *)

(** Where the accept loop stands: at [listener.Accept()], at
    [sem <- struct{}{}] with an accepted connection, or at
    [go handleConnection(conn, sem)]. *)
Inductive loop_pc : Type :=
  | AtAccept
  | AtSend (w : world)
  | AtGo (w : world).

Record state : Type := mkState {
  sem : nat;                       (* len(sem), the slots in use *)
  pc : loop_pc;
  goroutines : list goroutine
}.

(** [sem := make(chan struct{}, maxConcurrentRequests)], before the loop *)
Definition init : state := {| sem := 0; pc := AtAccept; goroutines := [] |}.

Inductive label : Type :=
  | AcceptOk (w : world)           (* Accept returns a connection *)
  | AcceptErr (e : error)          (* Accept fails: log and continue *)
  | SemSend                        (* sem <- struct{}{} *)
  | Go                             (* go handleConnection(conn, sem) *)
  | Run (i : nat).                 (* goroutine i performs its next effect *)

(** The effect of one event of a goroutine on the channel: a receive from
    an empty channel blocks. *)
Definition perform (e : event) (n : nat) : option nat :=
  if is_release e then
    match n with
    | O => None
    | S n' => Some n'
    end
  else Some n.

(** One effect of a goroutine: the body first, then the deferred calls. *)
Definition advance (g : goroutine) : option (event * goroutine) :=
  match todo g with
  | e :: t => Some (e, {| todo := t; deferred := deferred g |})
  | [] =>
      match deferred g with
      | e :: d => Some (e, {| todo := []; deferred := d |})
      | [] => None
      end
  end.

Definition step (l : label) (st : state) : option state :=
  match l with
  | AcceptOk w =>
      match pc st with
      | AtAccept => Some {| sem := sem st; pc := AtSend w; goroutines := goroutines st |}
      | _ => None
      end
  | AcceptErr _ =>
      match pc st with
      | AtAccept => Some st
      | _ => None
      end
  | SemSend =>
      match pc st with
      | AtSend w =>
          (* a send on a full buffered channel blocks *)
          if (sem st <? maxConcurrentRequests)%nat
          then Some {| sem := S (sem st); pc := AtGo w; goroutines := goroutines st |}
          else None
      | _ => None
      end
  | Go =>
      match pc st with
      | AtGo w =>
          Some {| sem := sem st; pc := AtAccept;
                  goroutines := goroutines st ++ [handleConnection w] |}
      | _ => None
      end
  | Run i =>
      g ← goroutines st !! i;
      '(e, g') ← advance g;
      n ← perform e (sem st);
      Some {| sem := n; pc := pc st; goroutines := <[i := g']> (goroutines st) |}
  end.

Fixpoint run (ls : list label) (st : state) : option state :=
  match ls with
  | [] => Some st
  | l :: ls' => st' ← step l st; run ls' st'
  end.

Definition reachable (st : state) : Prop := ∃ ls, run ls init = Some st.

(** A goroutine that has not yet released its slot. *)
Definition holds_slot (g : goroutine) : bool := existsb is_release (remaining g).

(** A goroutine whose body has not returned yet. *)
Definition handling (g : goroutine) : bool := negb (bool_decide (todo g = [])).

(** The connection the loop has taken through the gate and not yet handed
    to a goroutine. *)
Definition at_go (p : loop_pc) : nat :=
  match p with AtGo _ => 1 | _ => 0 end.

(** The connections past the gate whose slot is still taken. *)
Definition slots_held (st : state) : nat :=
  (at_go (pc st) + length (List.filter holds_slot (goroutines st)))%nat.

(** The connections past the gate whose handling has not finished. *)
Definition in_flight (st : state) : nat :=
  (at_go (pc st) + length (List.filter handling (goroutines st)))%nat.

End Server.

(* ===================================================================== *)
(** * proxy.go                                                            *)
(* ===================================================================== *)

Module Proxy.

(** An open upstream connection: the error of [req.Write(remoteConn)], if
    any, and what [io.Copy(clientConn, remoteConn)] does (the bytes it moves
    and its error). *)
Record upstream : Type := mkUpstream {
  Write_err : option error;
  io_Copy : string * option error
}.

(** What one connection meets: the peer and the network. *)
Record world : Type := mkWorld {
  RemoteAddr : string;                         (* clientConn.RemoteAddr().String() *)
  ReadRequest : http.Request + error;          (* http.ReadRequest(reader) *)
  net_Dial : string → upstream + error         (* net.Dial("tcp", address) *)
}.

(** [sendErrorResponse(conn, code, status)] (same as server version) *)
Definition sendErrorResponse (code : Z) (status : string) : trace :=
  let body := Sprintf "%d %s" [AInt code; AStr status] in
  [Log "Sending error: %s" [LStr body]]
  ++ Fprintf ("HTTP/1.1 %d %s" +:+ CRLF) [AInt code; AStr status]
  ++ Fprintf ("Content-Type: text/plain" +:+ CRLF) []
  ++ Fprintf ("Content-Length: %d" +:+ CRLF) [AInt (len body)]
  ++ Fprintf ("Connection: close" +:+ CRLF) []
  ++ Fprintf CRLF []
  ++ Fprintf "%s" [AStr body].

(** step 1 of [forwardRequest]: Get target host address;
    the value of [targetHost] at line 83 *)
Definition resolveHost (req : http.Request) : string :=
  let targetHost := url.Host (http.URL req) in
  if bool_decide (targetHost = "")
  then
    (* If URL is a relative path (non-standard proxy request), try to get
       from Host header *)
    http.Host req
  else targetHost.

(** step 2 of [forwardRequest]: Ensure target address includes port
    (default 80 for HTTP) *)
Definition ensurePort (targetHost : string) : string :=
  match SplitHostPort targetHost with
  | inr _ =>
      (* Assume no port, add default 80 port *)
      JoinHostPort targetHost "80"
  | inl _ => targetHost
  end.

(** step 4 of [forwardRequest], the changes made to [req] before it is
    written: lines 105 to 109 *)
Definition rewrite (req : http.Request) : http.Request :=
  let req := http.set_RequestURI (url.Path (http.URL req)) req in
  (* Remove proxy-specific headers *)
  let req := http.set_Header (http.Del "Proxy-Connection" (http.Header_ req)) req in
  (* Force close connection to simplify handling *)
  http.set_Header (http.Set_ "Connection" "close" (http.Header_ req)) req.

(** [forwardRequest(clientConn, req)] *)
Definition forwardRequest (w : world) (req : http.Request) : trace :=
  (* step 1: Get target host address *)
  let targetHost := resolveHost req in
  if bool_decide (targetHost = "") then
    sendErrorResponse http.StatusBadRequest "Bad Request: Missing host in request"
  else
    (* step 2: Ensure target address includes port *)
    let targetHost := ensurePort targetHost in
    (* step 3: Connect to target server *)
    [Dial targetHost] ++
    match net_Dial w targetHost with
    | inr err =>
        [Log "Failed to connect to target server %s: %v" [LStr targetHost; LErr err]]
        ++ sendErrorResponse http.StatusBadGateway "Bad Gateway: Could not connect to host"
    | inl remoteConn =>
        defer [RemoteClose] (
          (* step 4: Forward client request to target server *)
          let req := rewrite req in
          [RemoteWrite (http.Write req)] ++
          match Write_err remoteConn with
          | Some err =>
              [Log "Failed to forward request to %s: %v" [LStr targetHost; LErr err]]
              ++ sendErrorResponse http.StatusBadGateway "Bad Gateway: Error writing to remote"
          | None =>
              (* step 5: Copy the target server's response as is back to the client *)
              let '(copied, cerr) := io_Copy remoteConn in
              [ConnCopy copied]
              ++ match cerr with
                 | Some err =>
                     [Log "Failed to copy response from %s: %v" [LStr targetHost; LErr err]]
                 | None => []
                 end
              ++ [Log "Copied %d bytes of response from %s" [LInt (len copied); LStr targetHost]]
          end)
    end.

(** The test of line 57:
    [err != io.EOF && !strings.Contains(err.Error(), "connection reset")] *)
Definition shouldReport (err : error) : bool :=
  negb (bool_decide (err = io_EOF)) && negb (Contains (Error err) "connection reset").

(** steps 2 and 3 of [handleProxyRequest]: Only implement GET method *)
Definition dispatch (w : world) (req : http.Request) : trace :=
  if negb (bool_decide (http.Method req = "GET")) then
    [Log "Unsupported method: %s" [LStr (http.Method req)]]
    ++ sendErrorResponse http.StatusNotImplemented "Not Implemented"
  else
    [Log "Proxying %s %s" [LStr (http.Method req); LUrl (http.URL req)]]
    (* step 3: Forward request to target server *)
    ++ forwardRequest w req.

(** [handleProxyRequest(clientConn)], with steps 2 and 3 as the parameter
    [route] *)
Definition handleProxyRequest_with (route : http.Request → trace) (w : world) : trace :=
  defer [ConnClose] (
    [Log "Handling new proxy connection: %s" [LStr (RemoteAddr w)]] ++
    (* step 1: Parse request *)
    match ReadRequest w with
    | inr err =>
        [Log "Failed to parse request: %v" [LErr err]]
        ++ (if shouldReport err
            then sendErrorResponse http.StatusBadRequest "Bad Request"
            else [])
    | inl req => route req
    end).

(** [handleProxyRequest(clientConn)] *)
Definition handleProxyRequest (w : world) : trace :=
  handleProxyRequest_with (dispatch w) w.

End Proxy.

(* ===================================================================== *)
(** * Sample connections                                                  *)
(* ===================================================================== *)

(** A request for the root, as [ReadRequest] returns it for
    [GET / HTTP/1.1]. *)
Definition get_root : http.Request :=
  http.mkRequest "GET" (url.mkURL "" "" "" "/" "/" false "") ∅ "localhost:8080" "/" "".

Definition quiet_world (r : http.Request + error) : Server.world :=
  Server.mkWorld "127.0.0.1:50000" r
    (λ _, Server.OpenErr (errorString "no such file or directory") true)
    (λ _, None) (λ _, None) (λ body, (body, None)).

(** [GET http://example.test/docs?x=1 HTTP/1.1] with a [Proxy-Connection]
    header, as [ReadRequest] returns it. *)
Definition get_docs : http.Request :=
  http.mkRequest "GET"
    (url.mkURL "http" "" "example.test" "/docs" "/docs" false "x=1")
    (<["Proxy-Connection" := ["keep-alive"]]> (<["Accept" := ["*/*"]]> ∅))
    "example.test" "http://example.test/docs?x=1" "".

(** [GET /docs HTTP/1.1] without a Host header. *)
Definition get_no_host : http.Request :=
  http.mkRequest "GET" (url.mkURL "" "" "" "/docs" "/docs" false "") ∅ "" "/docs" "".

(** [GET http://[::1]/index.html HTTP/1.1] *)
Definition get_ipv6 : http.Request :=
  http.mkRequest "GET"
    (url.mkURL "http" "" "[::1]" "/index.html" "/index.html" false "")
    ∅ "[::1]" "http://[::1]/index.html" "".

(** A network in which exactly [address] answers, with [response]. *)
Definition listening (address response : string) (dialed : string) : Proxy.upstream + error :=
  if bool_decide (dialed = address)
  then inl (Proxy.mkUpstream None (response, None))
  else inr (errorString ("dial tcp " +:+ dialed +:+ ": connect: connection refused")).

Definition proxy_world (req : http.Request) (dial : string → Proxy.upstream + error)
    : Proxy.world :=
  Proxy.mkWorld "127.0.0.1:50000" (inl req) dial.

Definition no_listener (dialed : string) : Proxy.upstream + error :=
  inr (errorString ("dial tcp " +:+ dialed +:+ ": connect: connection refused")).

(** [DELETE /index.html HTTP/1.1] and [POST http://example.test/docs HTTP/1.1] *)
Definition delete_index : http.Request :=
  http.mkRequest "DELETE" (url.mkURL "" "" "" "/index.html" "/index.html" false "")
    ∅ "localhost:8080" "/index.html" "".

Definition post_docs : http.Request :=
  http.mkRequest "POST" (url.mkURL "http" "" "example.test" "/docs" "/docs" false "")
    ∅ "example.test" "http://example.test/docs" "a=1".

(** The double quote, for the texts of errors that quote their input. *)
Definition dquote : string := String (ascii_of_nat 34) "".

(** [GET http:docs HTTP/1.1] with [Host: example.test]: a target with a
    scheme and a rootless path, which [url.ParseRequestURI] keeps as the
    opaque part of the URL. *)
Definition get_opaque : http.Request :=
  http.mkRequest "GET" (url.mkURL "http" "docs" "" "" "" false "")
    ∅ "example.test" "http:docs" "".

(** A parse failure of the library for a request line that does not end:
    [io.ErrUnexpectedEOF], which is not [io.EOF]. *)
Definition ErrUnexpectedEOF : error := errorString "unexpected EOF".

(** [n] connections taken through accept, gate and [go], one after the
    other, each meeting [w]. *)
Fixpoint admit_connections (n : nat) (w : Server.world) : list Server.label :=
  match n with
  | O => []
  | S n' => [Server.AcceptOk w; Server.SemSend; Server.Go] ++ admit_connections n' w
  end.

(** The state after two connections were admitted, the first has run to
    its end and a third waits between the gate and [go]. *)
Definition busy_labels : list Server.label :=
  admit_connections 2 (quiet_world (inr io_EOF))
  ++ [Server.Run 0; Server.Run 0; Server.Run 0; Server.Run 0; Server.Run 0]
  ++ [Server.AcceptOk (quiet_world (inl get_root)); Server.SemSend].

Definition busy_state : Server.state :=
  default Server.init (Server.run busy_labels Server.init).

(* ===================================================================== *)
(** * Invariants                                                          *)
(* ===================================================================== *)

(** Every separator of the buffer follows a byte that is not a separator
    and is followed by some byte. *)
Definition separated (l : list ascii) : Prop :=
  ∀ i, l !! i = Some "/"%char →
    (∃ j a, i = S j ∧ l !! j = Some a ∧ a ≠ "/"%char) ∧ is_Some (l !! S i).

(** The invariant of the loop of [Clean] on a path that is not rooted. *)
Definition clean_inv (out : list ascii) (dotdot : nat) : Prop :=
  separated out ∧ (dotdot ≤ length out)%nat ∧
  ((0 < dotdot)%nat → ∃ a, out !! (dotdot - 1)%nat = Some a ∧ a ≠ "/"%char).

(** The releases a goroutine has yet to perform. *)
Definition releases (g : Server.goroutine) : nat :=
  count is_release (Server.remaining g).

(** A goroutine of the server releases in its deferred calls only, at most
    once, and has not released while its body runs. *)
Definition goroutine_inv (g : Server.goroutine) : Prop :=
  count is_release (Server.todo g) = 0%nat ∧
  (count is_release (Server.deferred g) ≤ 1)%nat ∧
  (Server.todo g ≠ [] → count is_release (Server.deferred g) = 1%nat).

(** The invariant of the accept loop: the channel holds one token for the
    connection between [sem <-] and [go], and one for each goroutine that
    has a release ahead. *)
Definition sem_inv (st : Server.state) : Prop :=
  Server.sem st =
    (Server.at_go (Server.pc st) + sum_list_with releases (Server.goroutines st))%nat ∧
  (Server.sem st ≤ Server.maxConcurrentRequests)%nat ∧
  Forall goroutine_inv (Server.goroutines st).

(** A parse failure that calls for no response: the stream ended with no
    data ([io.EOF]), or the error says the peer reset the connection. *)
Definition benign (err : error) : bool :=
  bool_decide (err = io_EOF) || Contains (Error err) "connection reset".



(* ===================================================================== *)
(** * Properties                                                          *)
(* ===================================================================== *)

Lemma append_nil_r (s : string) : s +:+ "" = s.
Proof. induction s as [|c s IH]; simpl; [done | by rewrite IH]. Qed.

Lemma append_assoc (a b c : string) : (a +:+ b) +:+ c = a +:+ (b +:+ c).
Proof. induction a as [|x a IH]; simpl; [done | by rewrite IH]. Qed.

(** Normal form of string concatenations: right nested, literals merged. *)
Ltac str_norm :=
  unfold CRLF; simpl;
  repeat (progress (rewrite ?append_assoc, ?append_nil_r; simpl)).

(** Evaluation of the observers of a trace, leaving the handlers folded. *)
Ltac trace_simpl :=
  unfold Server.handleConnection_deferred, defer;
  cbn [conn_bytes List.filter app length count is_conn_output is_dial is_relay
       is_release is_remote_write is_fs String.append].

Section ErrorResponder.

Lemma atoi_itoa (z : Z) : atoi (itoa z) = Some z.
Proof.
  unfold atoi, itoa.
  rewrite NilZero.isi.
  - simpl. f_equal. apply DecimalZ.of_to.
  - destruct z; simpl; try discriminate.
    intros H. injection H as H. by apply (DecimalPos.Unsigned.to_uint_nonnil p).
  - destruct z; simpl; try discriminate.
    intros H. injection H as H. by apply (DecimalPos.Unsigned.to_uint_nonnil p).
Qed.

Lemma Sprintf_body code status :
  Sprintf "%d %s" [AInt code; AStr status] = error_body code status.
Proof. unfold error_body. simpl. by rewrite append_nil_r. Qed.

(** The six writes of the server's [sendErrorResponse], one by one. *)
Lemma Server_sendErrorResponse_writes code status :
  Server.sendErrorResponse code status =
    [ Log "Sending error: %s" [LStr (error_body code status)];
      ConnWrite ("HTTP/1.1 " +:+ itoa code +:+ " " +:+ status +:+ CRLF);
      ConnWrite ("Content-Type: text/plain" +:+ CRLF);
      ConnWrite ("Content-Length: " +:+ itoa (len (error_body code status)) +:+ CRLF);
      ConnWrite ("Connection: close" +:+ CRLF);
      ConnWrite CRLF;
      ConnWrite (error_body code status) ].
Proof.
  unfold Server.sendErrorResponse, Fprintf.
  rewrite Sprintf_body. simpl. by rewrite append_nil_r.
Qed.

(** The same for the proxy's copy. *)
Lemma Proxy_sendErrorResponse_writes code status :
  Proxy.sendErrorResponse code status =
    [ Log "Sending error: %s" [LStr (error_body code status)];
      ConnWrite ("HTTP/1.1 " +:+ itoa code +:+ " " +:+ status +:+ CRLF);
      ConnWrite ("Content-Type: text/plain" +:+ CRLF);
      ConnWrite ("Content-Length: " +:+ itoa (len (error_body code status)) +:+ CRLF);
      ConnWrite ("Connection: close" +:+ CRLF);
      ConnWrite CRLF;
      ConnWrite (error_body code status) ].
Proof.
  unfold Proxy.sendErrorResponse, Fprintf.
  rewrite Sprintf_body. simpl. by rewrite append_nil_r.
Qed.

Lemma conn_bytes_app (t1 t2 : trace) :
  conn_bytes (t1 ++ t2) = conn_bytes t1 +:+ conn_bytes t2.
Proof.
  induction t1 as [|e t1 IH]; [done|].
  destruct e; simpl; rewrite ?IH, ?append_assoc; done.
Qed.

Lemma Server_sendErrorResponse_bytes code status :
  conn_bytes (Server.sendErrorResponse code status) = error_response code status.
Proof.
  rewrite Server_sendErrorResponse_writes. unfold error_response.
  by str_norm.
Qed.

Lemma Proxy_sendErrorResponse_bytes code status :
  conn_bytes (Proxy.sendErrorResponse code status) = error_response code status.
Proof.
  rewrite Proxy_sendErrorResponse_writes. unfold error_response.
  by str_norm.
Qed.

(** C8: for every status code and reason string the Error Responder writes
    the status line, [Content-Type: text/plain], a [Content-Length] whose
    value is the byte length of the body, [Connection: close], a blank line,
    and the body ["<code> <reason>"], in this order and nothing else. *)
Theorem sendErrorResponse_layout (code : Z) (status : string) :
  let body := itoa code +:+ " " +:+ status in
  List.filter is_conn_output (Server.sendErrorResponse code status) =
    [ ConnWrite ("HTTP/1.1 " +:+ itoa code +:+ " " +:+ status +:+ CRLF);
      ConnWrite ("Content-Type: text/plain" +:+ CRLF);
      ConnWrite ("Content-Length: " +:+ itoa (len body) +:+ CRLF);
      ConnWrite ("Connection: close" +:+ CRLF);
      ConnWrite CRLF;
      ConnWrite body ]
  ∧ conn_bytes (Server.sendErrorResponse code status) = error_response code status
  ∧ atoi (itoa (len body)) = Some (Z.of_nat (String.length body)).
Proof.
  intros body. split; [|split].
  - by rewrite Server_sendErrorResponse_writes.
  - apply Server_sendErrorResponse_bytes.
  - apply atoi_itoa.
Qed.

(** C10: the error responders of the two programs are extensionally equal:
    for every status code and reason string they perform the same effects,
    so they put the same bytes on the connection. *)
Theorem sendErrorResponse_server_proxy_equal (code : Z) (status : string) :
  Server.sendErrorResponse code status = Proxy.sendErrorResponse code status
  ∧ conn_bytes (Server.sendErrorResponse code status) =
    conn_bytes (Proxy.sendErrorResponse code status).
Proof.
  split.
  - by rewrite Server_sendErrorResponse_writes, Proxy_sendErrorResponse_writes.
  - by rewrite Server_sendErrorResponse_bytes, Proxy_sendErrorResponse_bytes.
Qed.

Example sendErrorResponse_404 :
  conn_bytes (Server.sendErrorResponse 404 "Not Found") =
  "HTTP/1.1 404 Not Found" +:+ CRLF +:+ "Content-Type: text/plain" +:+ CRLF
  +:+ "Content-Length: 13" +:+ CRLF +:+ "Connection: close" +:+ CRLF +:+ CRLF
  +:+ "404 Not Found".
Proof. reflexivity. Qed.

End ErrorResponder.

(* --------------------------------------------------------------------- *)
(** ** [filepath.Clean] never ends a relative path with a separator       *)
(* --------------------------------------------------------------------- *)

Section CleanRelative.

Local Open Scope nat_scope.

Lemma sepAt_true l i : sepAt l i = true ↔ l !! i = Some "/"%char.
Proof.
  unfold sepAt, byteAt. destruct (l !! i) as [a|]; [|split; discriminate].
  rewrite Ascii.eqb_eq. split; congruence.
Qed.

Lemma IsPathSeparator_true c : IsPathSeparator c = true ↔ c = "/"%char.
Proof. apply Ascii.eqb_eq. Qed.

Lemma IsPathSeparator_false c : IsPathSeparator c = false ↔ c ≠ "/"%char.
Proof. apply Ascii.eqb_neq. Qed.

Lemma separated_nil : separated [].
Proof. intros i Hi. by rewrite lookup_nil in Hi. Qed.

Lemma separated_last l a : separated l → last l = Some a → a ≠ "/"%char.
Proof.
  intros Hl Hlast ->. rewrite last_lookup in Hlast.
  destruct (Hl _ Hlast) as [_ [b Hb]].
  apply lookup_lt_Some in Hb. apply lookup_lt_Some in Hlast. lia.
Qed.

Lemma separated_take l w :
  separated l →
  (w = 0 ∨ ∃ a, l !! (w - 1) = Some a ∧ a ≠ "/"%char) →
  separated (take w l).
Proof.
  intros Hl Hw i Hi.
  destruct (decide (i < w)) as [Hlt|Hge];
    [|rewrite lookup_take_ge in Hi by lia; discriminate].
  rewrite lookup_take_lt in Hi by done.
  destruct (Hl _ Hi) as [(j & a & -> & Hj & Ha) Hnext]. split.
  - exists j, a. rewrite lookup_take_lt by lia. done.
  - destruct Hw as [->|(b & Hb & Hbne)]; [lia|].
    destruct (decide (S (S j) < w)).
    + by rewrite lookup_take_lt.
    + assert (w - 1 = S j) as Heq by lia. rewrite Heq in Hb. congruence.
Qed.

Lemma separated_app_element out e :
  separated out → e ≠ [] → Forall (λ c, c ≠ "/"%char) e →
  separated ((if 0 <? length out then out ++ ["/"%char] else out) ++ e).
Proof.
  intros Hout Hne He.
  destruct (0 <? length out) eqn:Hlen.
  2:{ apply Nat.ltb_ge in Hlen. destruct out; [|simpl in Hlen; lia].
      simpl. intros i Hi. rewrite Forall_lookup in He. by destruct (He _ _ Hi). }
  apply Nat.ltb_lt in Hlen.
  rewrite <- app_assoc. simpl.
  intros i Hi.
  destruct (decide (i < length out)) as [Hlt|Hge].
  - rewrite lookup_app_l in Hi by done.
    destruct (Hout _ Hi) as [(j & a & -> & Hj & Ha) [b Hb]]. split.
    + exists j, a. rewrite lookup_app_l by lia. done.
    + exists b. rewrite lookup_app_l; [done|]. by apply lookup_lt_Some in Hb.
  - rewrite lookup_app_r in Hi by lia.
    destruct (i - length out) as [|k] eqn:Hk.
    + assert (i = length out) as -> by lia. split.
      * destruct (last out) as [a|] eqn:Hlast.
        2:{ apply last_None in Hlast. subst out. simpl in Hlen. lia. }
        exists (pred (length out)), a. split; [lia|].
        rewrite lookup_app_l by lia.
        split; [by rewrite <- last_lookup|]. by eapply separated_last.
      * rewrite lookup_app_r by lia.
        replace (S (length out) - length out) with 1 by lia. simpl.
        destruct e; [done|]. by eexists.
    + simpl in Hi. rewrite Forall_lookup in He. by destruct (He _ _ Hi).
Qed.

Lemma element_spec rest e tl :
  element rest = (e, tl) → Forall (λ c, c ≠ "/"%char) e.
Proof.
  revert e tl. induction rest as [|c rest IH]; intros e tl; simpl.
  { intros [= <- <-]. constructor. }
  destruct (IsPathSeparator c) eqn:Hc.
  { intros [= <- <-]. constructor. }
  destruct (element rest) as [e' tl'] eqn:He'. intros [= <- <-].
  constructor; [by apply IsPathSeparator_false | by eapply IH].
Qed.

Lemma element_cons c rest e tl :
  IsPathSeparator c = false → element (c :: rest) = (e, tl) → e ≠ [].
Proof.
  simpl. intros ->. destruct (element rest). by intros [= <- <-].
Qed.

Lemma backtrack_spec out dotdot w :
  dotdot ≤ w →
  dotdot ≤ backtrack out dotdot w ≤ w ∧
  (backtrack out dotdot w = dotdot ∨ sepAt out (backtrack out dotdot w) = true).
Proof.
  induction w as [|w IH]; intros Hle; simpl.
  { split; [lia|]. left. lia. }
  destruct (dotdot <? S w) eqn:Hlt; simpl.
  - apply Nat.ltb_lt in Hlt.
    destruct (sepAt out (S w)) eqn:Hsep; simpl.
    + split; [lia|]. by right.
    + destruct IH as [? ?]; [lia|]. split; [lia|done].
  - apply Nat.ltb_ge in Hlt. split; [lia|]. left. lia.
Qed.

Lemma cleanLoop_inv fuel rest out dotdot :
  clean_inv out dotdot → separated (cleanLoop fuel false rest out dotdot).
Proof.
  revert rest out dotdot.
  induction fuel as [|fuel IH]; intros rest out dotdot Hinv; simpl.
  { apply Hinv. }
  destruct rest as [|c rest1]; [apply Hinv|].
  destruct (IsPathSeparator c) eqn:Hc; [by apply IH|].
  destruct (Ascii.eqb c "." && (bool_decide (rest1 = []) || sepAt rest1 0));
    [by apply IH|].
  destruct (Ascii.eqb c "." && byteAt rest1 0 "." &&
            (bool_decide (drop 1 rest1 = []) || sepAt rest1 1)).
  - destruct Hinv as (Hsep & Hdd & Hprev).
    destruct (dotdot <? length out) eqn:Hlt; simpl.
    + apply Nat.ltb_lt in Hlt.
      destruct (backtrack_spec out dotdot (length out - 1)) as [Hb1 Hb2]; [lia|].
      set (w := backtrack out dotdot (length out - 1)) in *.
      apply IH. split; [|split].
      * apply separated_take; [done|].
        destruct Hb2 as [Hw|Hw].
        -- rewrite Hw. destruct (decide (dotdot = 0)); [by left|right].
           apply Hprev. lia.
        -- apply sepAt_true in Hw.
           destruct (Hsep _ Hw) as [(j & a & Hj & Ha & Hne) _]. right.
           exists a. rewrite Hj. by replace (S j - 1) with j by lia.
      * rewrite length_take. lia.
      * intros Hpos. destruct (Hprev Hpos) as (a & Ha & Hne). exists a.
        rewrite lookup_take_lt by lia. done.
    + apply Nat.ltb_ge in Hlt.
      set (out1 := if 0 <? length out then out ++ ["/"%char] else out).
      apply IH. split; [|split].
      * subst out1.
        apply (separated_app_element out ["."%char; "."%char]); [done|done|].
        repeat constructor; discriminate.
      * lia.
      * intros _. exists "."%char. split; [|discriminate].
        rewrite length_app. simpl.
        replace (length out1 + 2 - 1) with (length out1 + 1) by lia.
        rewrite lookup_app_r by lia.
        by replace (length out1 + 1 - length out1) with 1 by lia.
  - simpl.
    destruct (element rest1) as [e' tl] eqn:He. rewrite Hc.
    destruct Hinv as (Hsep & Hdd & Hprev).
    assert (Forall (λ c0, c0 ≠ "/"%char) (c :: e')) as Hall.
    { constructor; [by apply IsPathSeparator_false | by eapply element_spec]. }
    assert (negb (length out =? 0) = (0 <? length out)) as ->.
    { destruct (length out); done. }
    apply IH. split; [|split].
    + by apply separated_app_element.
    + rewrite length_app. destruct (0 <? length out); rewrite ?length_app; lia.
    + intros Hpos. destruct (Hprev Hpos) as (a & Ha & Hne). exists a.
      split; [|done].
      assert (dotdot - 1 < length out) by lia.
      destruct (0 <? length out); rewrite <- ?app_assoc;
        by rewrite lookup_app_l.
Qed.

(** The result of [Clean] on a path that starts with ["./"] is never
    ["./"]: the test of line 99 of [handleGet] is false for every request. *)
Lemma Clean_relative_not_dot_slash (p : string) : Clean ("./" +:+ p) ≠ "./".
Proof.
  unfold Clean. simpl.
  set (out := cleanLoop _ _ _ _ _).
  assert (separated out) as Hsep.
  { apply cleanLoop_inv. split; [apply separated_nil|]. simpl. split; lia. }
  destruct out as [|a out']; [discriminate|].
  intros Heq.
  assert (a :: out' = ["."%char; "/"%char]) as Hout.
  { rewrite <- (String.list_ascii_of_string_of_list_ascii (a :: out')).
    unfold str in Heq. by rewrite Heq. }
  rewrite Hout in Hsep.
  destruct (Hsep 1 eq_refl) as [_ [b Hb]]. discriminate.
Qed.

End CleanRelative.

(* --------------------------------------------------------------------- *)
(** ** The file handler: the path of a GET                                *)
(* --------------------------------------------------------------------- *)

Section FileHandler.

(** The default of line 100 is never taken: the path [handleGet] serves is
    the cleaned path, for every request. *)
Lemma getPath_is_Clean (req : http.Request) :
  Server.getPath req = Clean ("./" +:+ url.Path (http.URL req)).
Proof.
  unfold Server.getPath. case_bool_decide as H; [|done].
  by apply Clean_relative_not_dot_slash in H.
Qed.

(** C9, evaluated on the code: for a GET whose URL path is ["/"] the path
    [handleGet] resolves is ["."], not ["index.html"]; its extension ["."]
    is not a supported type, so the request is answered 400 and no file is
    opened. *)
Theorem handleGet_root_path_rejected (w : Server.world) (req : http.Request) :
  url.Path (http.URL req) = "/" →
  Server.getPath req = "."
  ∧ Server.handleGet w req =
      [Log "Unsupported file type: %s (path: %s)" [LStr "."; LStr "."]]
      ++ Server.sendErrorResponse 400 "Bad Request: Unsupported file type"
  ∧ count is_fs (Server.handleGet w req) = 0%nat
  ∧ conn_bytes (Server.handleGet w req) =
      error_response 400 "Bad Request: Unsupported file type".
Proof.
  intros Hpath.
  assert (Server.getPath req = ".") as Hget.
  { unfold Server.getPath. rewrite Hpath. reflexivity. }
  assert (Server.handleGet w req =
      [Log "Unsupported file type: %s (path: %s)" [LStr "."; LStr "."]]
      ++ Server.sendErrorResponse 400 "Bad Request: Unsupported file type") as Hrun.
  { unfold Server.handleGet. rewrite Hget. reflexivity. }
  split; [done|]. split; [done|]. rewrite Hrun. split.
  - reflexivity.
  - reflexivity.
Qed.

Lemma handleGet_root_path_rejected_witness :
  Server.getPath get_root = "."
  ∧ conn_bytes (Server.handleGet (quiet_world (inl get_root)) get_root) =
      error_response 400 "Bad Request: Unsupported file type".
Proof.
  destruct (handleGet_root_path_rejected (quiet_world (inl get_root)) get_root eq_refl)
    as (H1 & _ & _ & H2).
  split; [exact H1 | exact H2].
Defined.

End FileHandler.

(* --------------------------------------------------------------------- *)
(** ** The proxy: port defaulting                                         *)
(* --------------------------------------------------------------------- *)

Section PortDefaulting.

Lemma LastIndexByte_None l c : IndexByte l c = None → LastIndexByte l c = None.
Proof.
  induction l as [|a l IH]; simpl; [done|].
  destruct (Ascii.eqb a c); [done|].
  destruct (IndexByte l c); [done|]. intros _. by rewrite IH.
Qed.

(** A host without a colon has no port: port 80 is appended. *)
Lemma ensurePort_no_colon (h : string) :
  IndexByte (bytes h) ":" = None → Proxy.ensurePort h = h +:+ ":80".
Proof.
  intros Hno. unfold Proxy.ensurePort, SplitHostPort.
  rewrite (LastIndexByte_None _ _ Hno). unfold JoinHostPort. by rewrite Hno.
Qed.

(** A host that splits into host and port is dialed unchanged. *)
Lemma ensurePort_explicit_port (h host port : string) :
  SplitHostPort h = inl (host, port) → Proxy.ensurePort h = h.
Proof. intros H. unfold Proxy.ensurePort. by rewrite H. Qed.

Example ensurePort_name : Proxy.ensurePort "example.test" = "example.test:80".
Proof. reflexivity. Qed.

Example ensurePort_name_port : Proxy.ensurePort "example.test:8080" = "example.test:8080".
Proof. reflexivity. Qed.

Example ensurePort_ipv6_port : Proxy.ensurePort "[::1]:8080" = "[::1]:8080".
Proof. reflexivity. Qed.

(** An IPv6 address written without brackets is bracketed and given port 80. *)
Example ensurePort_bare_ipv6 : Proxy.ensurePort "::1" = "[::1]:80".
Proof. reflexivity. Qed.

Lemma bytes_app (a b : string) : bytes (a +:+ b) = bytes a ++ bytes b.
Proof. induction a as [|c a IH]; simpl; [done | by rewrite IH]. Qed.

Lemma IndexByte_app_r (l1 l2 : list ascii) (c : ascii) :
  IndexByte l1 c = None →
  IndexByte (l1 ++ l2) c = (λ i, length l1 + i)%nat <$> IndexByte l2 c.
Proof.
  induction l1 as [|a l1 IH]; simpl.
  { intros _. by destruct (IndexByte l2 c). }
  destruct (Ascii.eqb a c); [done|].
  destruct (IndexByte l1 c) eqn:H1; [done|]. intros _.
  rewrite IH by done. by destruct (IndexByte l2 c).
Qed.

Lemma IndexByte_app_l (l1 l2 : list ascii) (c : ascii) :
  is_Some (IndexByte l1 c) → is_Some (IndexByte (l1 ++ l2) c).
Proof.
  induction l1 as [|a l1 IH]; simpl; [by intros [? [=]]|].
  destruct (Ascii.eqb a c); [done|].
  destruct (IndexByte l1 c) eqn:H1; [|by intros [? [=]]].
  intros _. destruct IH as [i ->]; [done|]. by eexists.
Qed.

Lemma LastIndexByte_is_Some (l : list ascii) (c : ascii) :
  is_Some (IndexByte l c) → is_Some (LastIndexByte l c).
Proof.
  induction l as [|a l IH]; simpl; [done|].
  destruct (LastIndexByte l c); [by eexists|].
  destruct (Ascii.eqb a c); [by eexists|].
  destruct (IndexByte l c); [|by intros [? [=]]].
  intros _. by destruct IH as [? [=]].
Qed.

(** Every IPv6 literal in brackets and without a port, the form a URL
    carries, is bracketed a second time. *)
Lemma ensurePort_bracketed (lit : string) :
  is_Some (IndexByte (bytes lit) ":") →
  IndexByte (bytes lit) "]" = None →
  Proxy.ensurePort ("[" +:+ lit +:+ "]") = "[[" +:+ lit +:+ "]]:80".
Proof.
  intros Hcolon Hclose.
  assert (bytes ("[" +:+ lit +:+ "]") = "["%char :: bytes lit ++ ["]"%char]) as Hb.
  { change ("[" +:+ lit +:+ "]") with (String "[" (lit +:+ "]")).
    simpl. by rewrite bytes_app. }
  assert (is_Some (IndexByte (bytes ("[" +:+ lit +:+ "]")) ":")) as Hc.
  { rewrite Hb. simpl. destruct (IndexByte_app_l (bytes lit) ["]"%char] ":" Hcolon) as [i ->].
    by eexists. }
  unfold Proxy.ensurePort, SplitHostPort.
  destruct (LastIndexByte_is_Some _ _ Hc) as [i ->].
  rewrite Hb. cbn [byteAt lookup list_lookup Ascii.eqb Bool.eqb].
  cbn [IndexByte Ascii.eqb Bool.eqb]. rewrite IndexByte_app_r by done.
  cbn [IndexByte Ascii.eqb Bool.eqb fmap option_fmap option_map].
  cbn [length]. rewrite length_app. cbn [length].
  rewrite Nat.add_0_r.
  replace (S (length (bytes lit)) + 1 =? S (length (bytes lit) + 1))%nat with true
    by (symmetry; apply Nat.eqb_eq; lia).
  unfold JoinHostPort. rewrite bool_decide_eq_true_2 by done.
  by str_norm.
Qed.

Example ensurePort_bracketed_documentation_address :
  Proxy.ensurePort "[2001:db8::1]" = "[[2001:db8::1]]:80".
Proof. reflexivity. Qed.

End PortDefaulting.

(* --------------------------------------------------------------------- *)
(** ** The proxy: target resolution, connect failure, request rewriting   *)
(* --------------------------------------------------------------------- *)

Section Forwarder.

Implicit Types (w : Proxy.world) (req : http.Request).

Lemma filter_sendErrorResponse_proxy (p : event → bool) code status :
  (∀ d, p (ConnWrite d) = false) → (∀ f a, p (Log f a) = false) →
  List.filter p (Proxy.sendErrorResponse code status) = [].
Proof.
  intros Hw Hl. rewrite Proxy_sendErrorResponse_writes. simpl.
  by rewrite Hl, !Hw.
Qed.

(** The three ways [forwardRequest] goes. *)
Lemma forwardRequest_missing_host w req :
  Proxy.resolveHost req = "" →
  Proxy.forwardRequest w req =
    Proxy.sendErrorResponse 400 "Bad Request: Missing host in request".
Proof. intros H. unfold Proxy.forwardRequest. by rewrite H. Qed.

Lemma forwardRequest_dial_failure w req err :
  Proxy.resolveHost req ≠ "" →
  Proxy.net_Dial w (Proxy.ensurePort (Proxy.resolveHost req)) = inr err →
  Proxy.forwardRequest w req =
    [ Dial (Proxy.ensurePort (Proxy.resolveHost req));
      Log "Failed to connect to target server %s: %v"
          [LStr (Proxy.ensurePort (Proxy.resolveHost req)); LErr err] ]
    ++ Proxy.sendErrorResponse 502 "Bad Gateway: Could not connect to host".
Proof.
  intros Hhost Hdial. unfold Proxy.forwardRequest.
  rewrite bool_decide_eq_false_2 by done. by rewrite Hdial.
Qed.

Lemma forwardRequest_connected w req remoteConn :
  Proxy.resolveHost req ≠ "" →
  Proxy.net_Dial w (Proxy.ensurePort (Proxy.resolveHost req)) = inl remoteConn →
  ∃ rest,
    Proxy.forwardRequest w req =
      [ Dial (Proxy.ensurePort (Proxy.resolveHost req));
        RemoteWrite (http.Write (Proxy.rewrite req)) ] ++ rest ++ [RemoteClose]
    ∧ List.filter is_dial rest = [] ∧ List.filter is_remote_write rest = [].
Proof.
  intros Hhost Hdial. unfold Proxy.forwardRequest.
  rewrite bool_decide_eq_false_2 by done. rewrite Hdial. unfold defer.
  destruct (Proxy.Write_err remoteConn) as [err|].
  - eexists. split; [reflexivity|].
    split; rewrite List.filter_app, filter_sendErrorResponse_proxy; done.
  - destruct (Proxy.io_Copy remoteConn) as [copied [cerr|]];
      eexists; (split; [reflexivity|]); done.
Qed.

(** Every run of [forwardRequest] dials at most once: the address is the
    resolved host with its port, and there is no dial without a host. *)
Lemma forwardRequest_dials w req :
  List.filter is_dial (Proxy.forwardRequest w req) =
    if bool_decide (Proxy.resolveHost req = "") then []
    else [Dial (Proxy.ensurePort (Proxy.resolveHost req))].
Proof.
  case_bool_decide as Hhost.
  - rewrite forwardRequest_missing_host by done.
    by apply filter_sendErrorResponse_proxy.
  - destruct (Proxy.net_Dial w (Proxy.ensurePort (Proxy.resolveHost req)))
      as [remoteConn|err] eqn:Hdial.
    + destruct (forwardRequest_connected w req remoteConn Hhost Hdial)
        as (rest & -> & Hd & _).
      simpl. rewrite List.filter_app, Hd. done.
    + rewrite (forwardRequest_dial_failure w req err Hhost Hdial).
      rewrite List.filter_app, filter_sendErrorResponse_proxy; done.
Qed.

(** A parsed GET goes to the forwarder. *)
Lemma handleProxyRequest_get w req :
  Proxy.ReadRequest w = inl req → http.Method req = "GET" →
  Proxy.handleProxyRequest w =
    [ Log "Handling new proxy connection: %s" [LStr (Proxy.RemoteAddr w)];
      Log "Proxying %s %s" [LStr (http.Method req); LUrl (http.URL req)] ]
    ++ Proxy.forwardRequest w req ++ [ConnClose].
Proof.
  intros Hparse Hget.
  unfold Proxy.handleProxyRequest, Proxy.handleProxyRequest_with, Proxy.dispatch, defer.
  rewrite Hparse. rewrite bool_decide_eq_true_2 by done. done.
Qed.

Lemma conn_bytes_handleProxyRequest_get w req :
  Proxy.ReadRequest w = inl req → http.Method req = "GET" →
  conn_bytes (Proxy.handleProxyRequest w) = conn_bytes (Proxy.forwardRequest w req).
Proof.
  intros Hparse Hget. rewrite (handleProxyRequest_get w req Hparse Hget).
  simpl. rewrite conn_bytes_app. simpl. apply append_nil_r.
Qed.

Lemma filter_handleProxyRequest_get (p : event → bool) w req :
  (∀ f a, p (Log f a) = false) → p ConnClose = false →
  Proxy.ReadRequest w = inl req → http.Method req = "GET" →
  List.filter p (Proxy.handleProxyRequest w) = List.filter p (Proxy.forwardRequest w req).
Proof.
  intros Hl Hc Hparse Hget. rewrite (handleProxyRequest_get w req Hparse Hget).
  simpl. rewrite !Hl, List.filter_app. simpl. rewrite Hc. apply app_nil_r.
Qed.

(** C4: for a parsed GET, the upstream target is the host of the URL when
    it has one, otherwise the value of the Host header; when both are empty
    the client receives the 400 response and no connection is attempted. *)
Theorem proxy_target_resolution (w : Proxy.world) (req : http.Request) :
  Proxy.ReadRequest w = inl req → http.Method req = "GET" →
  let t := Proxy.handleProxyRequest w in
  (url.Host (http.URL req) ≠ "" →
     Proxy.resolveHost req = url.Host (http.URL req) ∧
     List.filter is_dial t = [Dial (Proxy.ensurePort (url.Host (http.URL req)))])
  ∧ (url.Host (http.URL req) = "" → http.Host req ≠ "" →
     Proxy.resolveHost req = http.Host req ∧
     List.filter is_dial t = [Dial (Proxy.ensurePort (http.Host req))])
  ∧ (url.Host (http.URL req) = "" → http.Host req = "" →
     List.filter is_dial t = [] ∧
     List.filter is_conn_output t =
       List.filter is_conn_output
         (Proxy.sendErrorResponse 400 "Bad Request: Missing host in request") ∧
     conn_bytes t = error_response 400 "Bad Request: Missing host in request").
Proof.
  intros Hparse Hget t. subst t.
  rewrite (filter_handleProxyRequest_get is_dial w req) by done.
  rewrite (filter_handleProxyRequest_get is_conn_output w req) by done.
  rewrite (conn_bytes_handleProxyRequest_get w req) by done.
  rewrite forwardRequest_dials.
  split; [|split].
  - intros Hurl.
    assert (Proxy.resolveHost req = url.Host (http.URL req)) as Hres.
    { unfold Proxy.resolveHost. by rewrite bool_decide_eq_false_2. }
    rewrite Hres. by rewrite bool_decide_eq_false_2.
  - intros Hurl Hhdr.
    assert (Proxy.resolveHost req = http.Host req) as Hres.
    { unfold Proxy.resolveHost. by rewrite bool_decide_eq_true_2. }
    rewrite Hres. by rewrite bool_decide_eq_false_2.
  - intros Hurl Hhdr.
    assert (Proxy.resolveHost req = "") as Hres.
    { unfold Proxy.resolveHost. by rewrite bool_decide_eq_true_2. }
    rewrite Hres, bool_decide_eq_true_2 by done.
    rewrite forwardRequest_missing_host by done.
    split; [done|]. split; [done|]. apply Proxy_sendErrorResponse_bytes.
Qed.

(** C5: when the upstream connection cannot be opened the client receives
    the 502 response and nothing else, the proxy has dialed once, and it
    has neither written to nor relayed from an upstream. *)
Theorem proxy_connect_failure (w : Proxy.world) (req : http.Request) (err : error) :
  Proxy.ReadRequest w = inl req → http.Method req = "GET" →
  Proxy.resolveHost req ≠ "" →
  Proxy.net_Dial w (Proxy.ensurePort (Proxy.resolveHost req)) = inr err →
  let t := Proxy.handleProxyRequest w in
  List.filter is_conn_output t =
    List.filter is_conn_output
      (Proxy.sendErrorResponse 502 "Bad Gateway: Could not connect to host")
  ∧ conn_bytes t = error_response 502 "Bad Gateway: Could not connect to host"
  ∧ List.filter is_dial t = [Dial (Proxy.ensurePort (Proxy.resolveHost req))]
  ∧ count is_relay t = 0%nat
  ∧ count is_remote_write t = 0%nat.
Proof.
  intros Hparse Hget Hhost Hdial t. subst t. unfold count.
  rewrite (filter_handleProxyRequest_get is_dial w req) by done.
  rewrite (filter_handleProxyRequest_get is_conn_output w req) by done.
  rewrite (filter_handleProxyRequest_get is_relay w req) by done.
  rewrite (filter_handleProxyRequest_get is_remote_write w req) by done.
  rewrite (conn_bytes_handleProxyRequest_get w req) by done.
  rewrite forwardRequest_dials, bool_decide_eq_false_2 by done.
  rewrite (forwardRequest_dial_failure w req err Hhost Hdial).
  split; [done|]. split; [|split; [done|]].
  - rewrite conn_bytes_app. apply Proxy_sendErrorResponse_bytes.
  - split; rewrite List.filter_app, filter_sendErrorResponse_proxy; done.
Qed.

End Forwarder.

Section Rewriting.

Implicit Types (w : Proxy.world) (req : http.Request).

(** The request line carries [URL.RequestURI()], whatever the field
    [RequestURI] holds: the assignment of line 105 does not reach the wire. *)
Lemma Write_ignores_RequestURI (v : string) req :
  http.Write (http.set_RequestURI v req) = http.Write req.
Proof. reflexivity. Qed.

(** After line 105 the field is the path alone, without the query. *)
Lemma rewrite_RequestURI_field req :
  http.RequestURI (Proxy.rewrite req) = url.Path (http.URL req).
Proof. reflexivity. Qed.










End Rewriting.


Section ForwarderWitnesses.

Lemma proxy_target_resolution_witness :
  List.filter is_dial (Proxy.handleProxyRequest (proxy_world get_no_host no_listener)) = []
  ∧ conn_bytes (Proxy.handleProxyRequest (proxy_world get_no_host no_listener)) =
      error_response 400 "Bad Request: Missing host in request".
Proof.
  destruct (proxy_target_resolution (proxy_world get_no_host no_listener) get_no_host
              eq_refl eq_refl) as (_ & _ & H).
  destruct (H eq_refl eq_refl) as (H1 & _ & H2).
  split; [exact H1 | exact H2].
Defined.

Lemma proxy_connect_failure_witness :
  conn_bytes (Proxy.handleProxyRequest (proxy_world get_docs no_listener)) =
    error_response 502 "Bad Gateway: Could not connect to host"
  ∧ List.filter is_dial (Proxy.handleProxyRequest (proxy_world get_docs no_listener)) =
      [Dial "example.test:80"].
Proof.
  assert (Proxy.resolveHost get_docs ≠ "") as Hhost by discriminate.
  destruct (proxy_connect_failure (proxy_world get_docs no_listener) get_docs
              (errorString "dial tcp example.test:80: connect: connection refused")
              eq_refl eq_refl Hhost eq_refl) as (_ & H1 & H2 & _).
  split; [exact H1 | exact H2].
Defined.


(** C6, evaluated on the code: the host of [http://[::1]/index.html] is
    ["[::1]"]; it has no port, and the proxy dials ["[[::1]]:80"], which is
    not the address ["[::1]:80"] and does not split into host and port. With
    a listener at ["[::1]:80"] the client is answered 502. *)
Theorem ensurePort_bracketed_ipv6 :
  Proxy.resolveHost get_ipv6 = "[::1]"
  ∧ Proxy.ensurePort "[::1]" = "[[::1]]:80"
  ∧ SplitHostPort "[[::1]]:80" =
      inr (AddrError "[[::1]]:80" "missing port in address")
  ∧ List.filter is_dial
      (Proxy.handleProxyRequest (proxy_world get_ipv6 (listening "[::1]:80" "HTTP/1.1 204 No Content")))
    = [Dial "[[::1]]:80"]
  ∧ conn_bytes
      (Proxy.handleProxyRequest (proxy_world get_ipv6 (listening "[::1]:80" "HTTP/1.1 204 No Content")))
    = error_response 502 "Bad Gateway: Could not connect to host".
Proof. repeat split; reflexivity. Qed.

End ForwarderWitnesses.

(* --------------------------------------------------------------------- *)
(** ** Parse failures and method dispatch, in both programs               *)
(* --------------------------------------------------------------------- *)

Section ParseAndDispatch.



Lemma filter_sendErrorResponse_server (p : event → bool) code status :
  (∀ d, p (ConnWrite d) = false) → (∀ f a, p (Log f a) = false) →
  List.filter p (Server.sendErrorResponse code status) = [].
Proof.
  intros Hw Hl. rewrite Server_sendErrorResponse_writes. simpl.
  by rewrite Hl, !Hw.
Qed.




(** C7: a parsed request is routed by its method, and every method has an
    outcome: the server sends GET to [handleGet], POST to [handlePost] and
    answers 501 to any other method; the proxy sends GET to
    [forwardRequest] and answers 501 to any other method, POST included. *)
Theorem method_dispatch_total
    (sw : Server.world) (pw : Proxy.world) (sreq preq : http.Request) :
  Server.ReadRequest sw = inl sreq →
  Proxy.ReadRequest pw = inl preq →
  Server.handleConnection_body sw =
    [Log "Handling new connection: %s" [LStr (Server.RemoteAddr sw)]]
    ++ (if bool_decide (http.Method sreq = "GET") then Server.handleGet sw sreq
        else if bool_decide (http.Method sreq = "POST") then Server.handlePost sw sreq
        else Server.sendErrorResponse 501 "Not Implemented")
  ∧ (http.Method sreq ≠ "GET" → http.Method sreq ≠ "POST" →
     conn_bytes (Server.remaining (Server.handleConnection sw)) =
       error_response 501 "Not Implemented"
     ∧ count is_fs (Server.remaining (Server.handleConnection sw)) = 0%nat)
  ∧ Proxy.handleProxyRequest pw =
      [Log "Handling new proxy connection: %s" [LStr (Proxy.RemoteAddr pw)]]
      ++ (if bool_decide (http.Method preq = "GET")
          then [Log "Proxying %s %s" [LStr (http.Method preq); LUrl (http.URL preq)]]
               ++ Proxy.forwardRequest pw preq
          else [Log "Unsupported method: %s" [LStr (http.Method preq)]]
               ++ Proxy.sendErrorResponse 501 "Not Implemented")
      ++ [ConnClose]
  ∧ (http.Method preq ≠ "GET" →
     conn_bytes (Proxy.handleProxyRequest pw) = error_response 501 "Not Implemented"
     ∧ count is_dial (Proxy.handleProxyRequest pw) = 0%nat)
  ∧ (http.Method preq = "POST" →
     conn_bytes (Proxy.handleProxyRequest pw) = error_response 501 "Not Implemented").
Proof.
  intros Hs Hp.
  assert (Server.handleConnection_body sw =
    [Log "Handling new connection: %s" [LStr (Server.RemoteAddr sw)]]
    ++ (if bool_decide (http.Method sreq = "GET") then Server.handleGet sw sreq
        else if bool_decide (http.Method sreq = "POST") then Server.handlePost sw sreq
        else Server.sendErrorResponse 501 "Not Implemented")) as Hsrv.
  { unfold Server.handleConnection_body, Server.handleConnection_with.
    rewrite Hs. reflexivity. }
  assert (Proxy.handleProxyRequest pw =
      [Log "Handling new proxy connection: %s" [LStr (Proxy.RemoteAddr pw)]]
      ++ (if bool_decide (http.Method preq = "GET")
          then [Log "Proxying %s %s" [LStr (http.Method preq); LUrl (http.URL preq)]]
               ++ Proxy.forwardRequest pw preq
          else [Log "Unsupported method: %s" [LStr (http.Method preq)]]
               ++ Proxy.sendErrorResponse 501 "Not Implemented")
      ++ [ConnClose]) as Hprx.
  { unfold Proxy.handleProxyRequest, Proxy.handleProxyRequest_with, Proxy.dispatch, defer.
    rewrite Hp. by destruct (bool_decide (http.Method preq = "GET")). }
  assert (http.Method preq ≠ "GET" →
     conn_bytes (Proxy.handleProxyRequest pw) = error_response 501 "Not Implemented"
     ∧ count is_dial (Proxy.handleProxyRequest pw) = 0%nat) as Hp501.
  { intros Hne. rewrite Hprx, bool_decide_eq_false_2 by done. unfold count.
    rewrite !conn_bytes_app, !List.filter_app.
    rewrite Proxy_sendErrorResponse_bytes, filter_sendErrorResponse_proxy by done.
    trace_simpl. by rewrite append_nil_r. }
  split; [exact Hsrv|]. split; [|split; [exact Hprx|split; [exact Hp501|]]].
  - intros Hg Hpo. unfold Server.remaining, Server.handleConnection.
    cbn [Server.todo Server.deferred]. rewrite Hsrv.
    rewrite !bool_decide_eq_false_2 by done. unfold count.
    rewrite !conn_bytes_app, !List.filter_app.
    rewrite Server_sendErrorResponse_bytes, filter_sendErrorResponse_server by done.
    trace_simpl. by rewrite append_nil_r.
  - intros Hpost. apply Hp501. rewrite Hpost. discriminate.
Qed.

End ParseAndDispatch.

(* --------------------------------------------------------------------- *)
(** ** The server: the semaphore                                          *)
(* --------------------------------------------------------------------- *)

Section Semaphore.

Local Open Scope nat_scope.

Implicit Types (w : Server.world) (g : Server.goroutine) (st : Server.state).

Lemma count_app (p : event → bool) (t1 t2 : trace) :
  count p (t1 ++ t2) = count p t1 + count p t2.
Proof. unfold count. by rewrite List.filter_app, length_app. Qed.

Lemma count_cons (p : event → bool) (e : event) (t : trace) :
  count p (e :: t) = (if p e then 1 else 0) + count p t.
Proof. unfold count. simpl. by destruct (p e). Qed.

Lemma count_sendErrorResponse_release code status :
  count is_release (Server.sendErrorResponse code status) = 0.
Proof. unfold count. by rewrite filter_sendErrorResponse_server. Qed.

(** No handler touches the semaphore. *)
Lemma handleGet_no_release w req : count is_release (Server.handleGet w req) = 0.
Proof.
  unfold Server.handleGet, defer.
  destruct (Server.mimeTypes !! _); [|reflexivity].
  destruct (Server.os_Open w _) as [f|err []]; [|reflexivity..].
  destruct (Server.file_Stat f); [|reflexivity].
  destruct (Server.file_Copy f).2; reflexivity.
Qed.

Lemma handlePost_no_release w req : count is_release (Server.handlePost w req) = 0.
Proof.
  unfold Server.handlePost, defer.
  destruct (Server.os_MkdirAll w _); [reflexivity|].
  destruct (Server.os_Create w _); [reflexivity|].
  destruct (Server.io_Copy_body w _) as [copied [err|]]; reflexivity.
Qed.

Lemma dispatch_no_release w req : count is_release (Server.dispatch w req) = 0.
Proof.
  unfold Server.dispatch.
  repeat case_bool_decide;
    auto using handleGet_no_release, handlePost_no_release,
               count_sendErrorResponse_release.
Qed.

(** Every run of [handleConnection] has exactly one release ahead, in its
    deferred calls: whatever the parse result, the method, and the answers
    of the file system are. *)
Lemma handleConnection_releases w :
  count is_release (Server.todo (Server.handleConnection w)) = 0
  ∧ count is_release (Server.deferred (Server.handleConnection w)) = 1.
Proof.
  split; [|reflexivity].
  cbn [Server.todo Server.handleConnection].
  unfold Server.handleConnection_body, Server.handleConnection_with.
  rewrite count_app.
  destruct (Server.ReadRequest w) as [req|err].
  - by rewrite dispatch_no_release.
  - rewrite count_app. destruct (Server.shouldReport err);
      by rewrite ?count_sendErrorResponse_release.
Qed.

Lemma handleConnection_inv w : goroutine_inv (Server.handleConnection w).
Proof.
  destruct (handleConnection_releases w) as [H0 H1].
  split; [done|]. split; [lia|done].
Qed.

Lemma releases_handleConnection w : releases (Server.handleConnection w) = 1.
Proof.
  destruct (handleConnection_releases w) as [H0 H1].
  unfold releases, Server.remaining. rewrite count_app. lia.
Qed.

(** One effect of a goroutine keeps its invariant and accounts for the
    release it performs. *)
Lemma advance_inv g e g' :
  goroutine_inv g → Server.advance g = Some (e, g') →
  goroutine_inv g' ∧ releases g = (if is_release e then 1 else 0) + releases g'.
Proof.
  intros (Htodo & Hdef & Hlive). unfold Server.advance, releases, Server.remaining.
  destruct g as [t d]; cbn [Server.todo Server.deferred] in *.
  destruct t as [|e0 t].
  - destruct d as [|e0 d]; [discriminate|]. intros [= <- <-].
    cbn [Server.todo Server.deferred app].
    rewrite count_cons in Hdef. rewrite count_cons. split; [|done].
    unfold goroutine_inv. cbn [Server.todo Server.deferred].
    split; [done|]. split; [lia|done].
  - intros [= <- <-]. cbn [Server.todo Server.deferred].
    rewrite count_cons in Htodo. rewrite <- !app_comm_cons, count_cons.
    split; [|done].
    unfold goroutine_inv. cbn [Server.todo Server.deferred].
    split; [lia|]. split; [done|]. intros _. by apply Hlive.
Qed.

Lemma sum_list_with_insert {A} (f : A → nat) (l : list A) (i : nat) (x y : A) :
  l !! i = Some x →
  sum_list_with f (<[i:=y]> l) + f x = sum_list_with f l + f y.
Proof.
  revert i. induction l as [|a l IH]; intros [|i]; simpl; try done.
  - intros [= ->]. lia.
  - intros H. specialize (IH _ H). lia.
Qed.

(** Each step of the program keeps the invariant of the semaphore. *)
Lemma step_inv (l : Server.label) st st' :
  sem_inv st → Server.step l st = Some st' → sem_inv st'.
Proof.
  intros (Hsem & Hcap & Hgs). destruct st as [n p gs].
  cbn [Server.sem Server.pc Server.goroutines] in *.
  destruct l as [w|err| | |i]; cbn [Server.step Server.sem Server.pc Server.goroutines].
  - destruct p; try discriminate. intros [= <-]. by split.
  - destruct p; try discriminate. intros [= <-]. by split.
  - destruct p as [|w|w]; try discriminate.
    destruct (n <? Server.maxConcurrentRequests) eqn:Hlt; [|discriminate].
    apply Nat.ltb_lt in Hlt. intros [= <-].
    split; [|split]; cbn [Server.sem Server.pc Server.goroutines Server.at_go] in *;
      [lia|lia|done].
  - destruct p as [|w|w]; try discriminate. intros [= <-].
    split; [|split]; cbn [Server.sem Server.pc Server.goroutines Server.at_go] in *.
    + rewrite sum_list_with_app. cbn [sum_list_with].
      rewrite releases_handleConnection. lia.
    + done.
    + apply Forall_app. split; [done|]. repeat constructor. apply handleConnection_inv.
  - destruct (gs !! i) as [g|] eqn:Hg; [|discriminate]. cbn [mbind option_bind].
    destruct (Server.advance g) as [[e g']|] eqn:Hadv; [|discriminate].
    cbn [mbind option_bind].
    destruct (Server.perform e n) as [n'|] eqn:Hperf; [|discriminate].
    cbn [mbind option_bind]. intros [= <-].
    assert (goroutine_inv g) as Hginv by (by eapply Forall_lookup_1).
    destruct (advance_inv g e g' Hginv Hadv) as [Hg' Hrel].
    assert (sum_list_with releases (<[i:=g']> gs) + releases g =
            sum_list_with releases gs + releases g') as Hsum.
    { by apply sum_list_with_insert. }
    unfold Server.perform in Hperf.
    split; [|split]; cbn [Server.sem Server.pc Server.goroutines].
    + destruct (is_release e); [destruct n; [discriminate|]|];
        injection Hperf as <-; lia.
    + destruct (is_release e); [destruct n; [discriminate|]|];
        injection Hperf as <-; lia.
    + by apply Forall_insert.
Qed.

Lemma init_inv : sem_inv Server.init.
Proof. split; [done|]. split; [unfold Server.maxConcurrentRequests; simpl; lia|constructor]. Qed.

Lemma run_inv (ls : list Server.label) st st' :
  sem_inv st → Server.run ls st = Some st' → sem_inv st'.
Proof.
  revert st. induction ls as [|l ls IH]; intros st Hinv; simpl.
  { by intros [= <-]. }
  destruct (Server.step l st) as [st1|] eqn:Hstep; [|discriminate].
  cbn [mbind option_bind]. apply IH. by eapply step_inv.
Qed.

Lemma reachable_inv st : Server.reachable st → sem_inv st.
Proof. intros [ls Hrun]. eapply run_inv; [apply init_inv | done]. Qed.

(** Under the invariant, the slots taken are the releases ahead. *)
Lemma holds_slot_releases g :
  goroutine_inv g →
  releases g = (if Server.holds_slot g then 1 else 0)
  ∧ (Server.handling g = true → Server.holds_slot g = true).
Proof.
  intros (Htodo & Hdef & Hlive).
  assert (∀ t : trace, existsb is_release t = (0 <? count is_release t)) as Hex.
  { induction t as [|e t IH]; [done|]. rewrite count_cons. simpl.
    rewrite IH. by destruct (is_release e). }
  unfold Server.holds_slot, releases. rewrite Hex.
  unfold Server.remaining. rewrite count_app, Htodo. simpl. split.
  - destruct (count is_release (Server.deferred g)) as [|[|k]]; [done|done|lia].
  - unfold Server.handling. intros Hh.
    apply negb_true_iff, bool_decide_eq_false in Hh. by rewrite Hlive.
Qed.

Lemma slots_held_sum (gs : list Server.goroutine) :
  Forall goroutine_inv gs →
  length (List.filter Server.holds_slot gs) = sum_list_with releases gs
  ∧ length (List.filter Server.handling gs) ≤ length (List.filter Server.holds_slot gs).
Proof.
  induction 1 as [|g gs Hg Hgs [IH1 IH2]]; [done|].
  destruct (holds_slot_releases g Hg) as [Hrel Himp]. simpl.
  rewrite Hrel.
  destruct (Server.handling g) eqn:Hh.
  - rewrite (Himp eq_refl). simpl. lia.
  - destruct (Server.holds_slot g); simpl; lia.
Qed.

(** The receive of the deferred release never blocks: in a reachable state
    every goroutine that has an effect ahead can perform it. *)
Lemma release_never_blocks st (i : nat) g :
  Server.reachable st → Server.goroutines st !! i = Some g →
  Server.remaining g ≠ [] → is_Some (Server.step (Server.Run i) st).
Proof.
  intros Hreach Hg Hrem.
  destruct (reachable_inv st Hreach) as (Hsem & Hcap & Hgs).
  cbn [Server.step]. rewrite Hg. cbn [mbind option_bind].
  destruct (Server.advance g) as [[e g']|] eqn:Hadv.
  2:{ exfalso. apply Hrem. unfold Server.advance, Server.remaining in *.
      destruct (Server.todo g); [|discriminate].
      destruct (Server.deferred g); [done|discriminate]. }
  cbn [mbind option_bind].
  assert (goroutine_inv g) as Hginv by (by eapply Forall_lookup_1).
  destruct (advance_inv g e g' Hginv Hadv) as [_ Hrel].
  unfold Server.perform. destruct (is_release e); [|by eexists].
  assert (releases g ≤ sum_list_with releases (Server.goroutines st)) as Hle.
  { apply sum_list_with_in. by eapply list_elem_of_lookup_2. }
  destruct (Server.sem st) as [|n]; [lia|]. by eexists.
Qed.

(** C1: in every reachable state of the accept loop and its goroutines, the
    connections that are past the semaphore and whose handling has not
    finished are at most those whose slot is taken, which are as many as
    the tokens in the channel, at most 10; and every goroutine, whatever it
    meets (parse failure, 501, a failing handler, success), has no release
    in its body and exactly one in its deferred calls, so it releases once
    on every exit path. *)
Theorem semaphore_bounds_in_flight (st : Server.state) :
  Server.reachable st →
  Server.in_flight st ≤ 10
  ∧ Server.in_flight st ≤ Server.slots_held st
  ∧ Server.slots_held st = Server.sem st
  ∧ Server.sem st ≤ Server.maxConcurrentRequests
  ∧ Forall (λ g, count is_release (Server.todo g) = 0 ∧ releases g ≤ 1)
           (Server.goroutines st)
  ∧ (∀ w, count is_release (Server.todo (Server.handleConnection w)) = 0
          ∧ count is_release (Server.deferred (Server.handleConnection w)) = 1).
Proof.
  intros Hreach.
  destruct (reachable_inv st Hreach) as (Hsem & Hcap & Hgs).
  destruct (slots_held_sum _ Hgs) as [Hheld Hle].
  assert (Server.slots_held st = Server.sem st) as Heq.
  { unfold Server.slots_held. rewrite Hheld. done. }
  assert (Server.in_flight st ≤ Server.slots_held st) as Hin.
  { unfold Server.in_flight, Server.slots_held. lia. }
  unfold Server.maxConcurrentRequests in *.
  split; [lia|]. split; [done|]. split; [done|]. split; [done|].
  split; [|apply handleConnection_releases].
  eapply Forall_impl; [exact Hgs|]. intros g Hg.
  destruct (holds_slot_releases g Hg) as [Hrel _]. destruct Hg as (H0 & _ & _).
  split; [done|]. rewrite Hrel. destruct (Server.holds_slot g); lia.
Qed.

End Semaphore.

(* --------------------------------------------------------------------- *)
(** ** The theorems at sample connections                                 *)
(* --------------------------------------------------------------------- *)

Section Samples.

Local Open Scope nat_scope.

Lemma busy_state_reachable : Server.reachable busy_state.
Proof. exists busy_labels. reflexivity. Qed.

Lemma semaphore_bounds_in_flight_witness :
  Server.in_flight busy_state ≤ 10
  ∧ Server.slots_held busy_state = Server.sem busy_state.
Proof.
  destruct (semaphore_bounds_in_flight busy_state
              (ex_intro _ busy_labels eq_refl)) as (H1 & _ & H2 & _).
  split; [exact H1 | exact H2].
Defined.

Example busy_state_counts :
  Server.sem busy_state = 2 ∧ Server.in_flight busy_state = 2
  ∧ length (Server.goroutines busy_state) = 2.
Proof. repeat split; reflexivity. Qed.

(** The bound is reached, and the eleventh connection waits at the gate. *)
Example ten_in_flight :
  (in_flight ← Server.in_flight <$>
     Server.run (admit_connections 10 (quiet_world (inl get_root))) Server.init;
   Some in_flight) = Some 10.
Proof. reflexivity. Qed.

Example eleventh_blocks :
  (st ← Server.run (admit_connections 10 (quiet_world (inl get_root))
                    ++ [Server.AcceptOk (quiet_world (inl get_root))]) Server.init;
   Server.step Server.SemSend st) = None.
Proof. reflexivity. Qed.


Lemma method_dispatch_total_witness :
  conn_bytes (Server.remaining (Server.handleConnection (quiet_world (inl delete_index))))
    = error_response 501 "Not Implemented"
  ∧ conn_bytes (Proxy.handleProxyRequest (proxy_world post_docs no_listener))
    = error_response 501 "Not Implemented".
Proof.
  assert (http.Method delete_index ≠ "GET") as H1 by discriminate.
  assert (http.Method delete_index ≠ "POST") as H2 by discriminate.
  destruct (method_dispatch_total (quiet_world (inl delete_index))
              (proxy_world post_docs no_listener) delete_index post_docs
              eq_refl eq_refl) as (_ & Hs & _ & _ & Hp).
  split; [exact (proj1 (Hs H1 H2)) | exact (Hp eq_refl)].
Defined.

(** A reset peer: the text of the error is matched, not its kind. *)
Example reset_is_benign :
  benign (errorString "read tcp 127.0.0.1:8080->127.0.0.1:50000: read: connection reset by peer")
  = true.
Proof. reflexivity. Qed.

Example unexpected_EOF_is_reported : benign ErrUnexpectedEOF = false.
Proof. reflexivity. Qed.

(** The test reads the text only: the library's errors for a request line
    or a header line that reads [connection reset] quote the line, and are
    taken for a reset. *)
Example malformed_line_taken_for_reset :
  benign (errorString ("malformed HTTP request " +:+ dquote +:+ "connection reset" +:+ dquote))
  = true
  ∧ benign (errorString "malformed MIME header line: connection reset") = true.
Proof. split; reflexivity. Qed.

(** A target with an opaque part is forwarded with that part as its
    request target. *)
Example opaque_target_forwarded :
  Proxy.resolveHost get_opaque = "example.test"
  ∧ http.request_line (http.Write (Proxy.rewrite get_opaque)) = "GET docs HTTP/1.1" +:+ CRLF.
Proof. split; reflexivity. Qed.

(** A query is forwarded although line 105 leaves it out of [RequestURI]. *)
Example query_is_forwarded :
  http.RequestURI (Proxy.rewrite get_docs) = "/docs"
  ∧ http.wire_target (http.Write (Proxy.rewrite get_docs)) = "/docs?x=1".
Proof. split; reflexivity. Qed.

(** [path/filepath] and [net] on the cases of their documentation. *)
Example Clean_index : Clean "./index.html" = "index.html". Proof. reflexivity. Qed.
Example Clean_root : Clean ".//" = ".". Proof. reflexivity. Qed.
Example Clean_dotdot : Clean "./a/../../b/./c//d/.." = "../b/c". Proof. reflexivity. Qed.
Example Clean_rooted : Clean "/../a/b/../c/" = "/a/c". Proof. reflexivity. Qed.
Example Clean_up : Clean "abc/def/../../.." = "..". Proof. reflexivity. Qed.
Example Ext_dot : Ext "." = ".". Proof. reflexivity. Qed.
Example Ext_html : Ext "a.b/index.html" = ".html". Proof. reflexivity. Qed.
Example Ext_none : Ext "a.b/index" = "". Proof. reflexivity. Qed.
Example Dir_nested : Dir "a/b/c.txt" = "a/b". Proof. reflexivity. Qed.
Example SplitHostPort_name : SplitHostPort "example.test:8080" = inl ("example.test", "8080").
Proof. reflexivity. Qed.
Example SplitHostPort_ipv6 : SplitHostPort "[::1]:80" = inl ("::1", "80").
Proof. reflexivity. Qed.
Example SplitHostPort_no_port :
  SplitHostPort "[::1]" = inr (AddrError "[::1]" "missing port in address").
Proof. reflexivity. Qed.
Example CanonicalMIMEHeaderKey_lower :
  CanonicalMIMEHeaderKey "proxy-connection" = "Proxy-Connection".
Proof. reflexivity. Qed.

(** A GET for an existing page is served; the root is not. *)
Example get_index_path :
  Server.getPath
    (http.mkRequest "GET" (url.mkURL "" "" "" "/index.html" "/index.html" false "")
       ∅ "localhost:8080" "/index.html" "") = "index.html".
Proof. reflexivity. Qed.

End Samples.
